(** * pyoption: option combination algebra and generalized Black-Scholes pricing

    A shallow embedding of [pyoption/classes.py] and [pyoption/pricing/gbs.py].

    - Python exceptions are the [Raise] case of an error monad.
    - In the instrument algebra ([Module Classes]) a Python number is an
      unbounded integer ([Z], Python's [int]), the way the repository itself
      builds options ([CallOption(100)], [p.value(120)]).
    - In the pricing engine ([Module Gbs]) a Python [float] is a real number;
      rounding, overflow and NaN are outside the model, the exceptions that
      [math.sqrt], [math.log] and [/] raise are inside it.  [math.exp] is
      total there, so a statement that a pricing function returns is made
      on inputs of moderate size ([Gbs.moderate]), where no float operation
      overflows or rounds to zero. *)

From Stdlib Require Import ZArith List String Bool Lia Reals Lra.
From Stdlib Require Import FunctionalExtensionality.
Import ListNotations.

(** ** Exceptions and the error monad *)

Inductive exn : Type :=
| ValueError
| ZeroDivisionError
| TypeError
| KeyError
| RuntimeError.

Inductive result (A : Type) : Type :=
| Ok (a : A)
| Raise (e : exn).

Arguments Ok {A} a.
Arguments Raise {A} e.

Definition bind {A B : Type} (m : result A) (k : A -> result B) : result B :=
  match m with
  | Ok a => k a
  | Raise e => Raise e
  end.

Notation "x <- m ;; k" := (bind m (fun x => k))
  (at level 61, m at next level, right associativity).

Definition raises {A : Type} (m : result A) : Prop :=
  exists e, m = Raise e.

(** ** The interpreter's [hash] *)

Module PyHash.

Local Open Scope Z_scope.

(** What [hash] does on the objects the repository hashes.  The hash of a
    string is keyed per process and the hash of a tuple is a function of the
    hashes of its items; both are parameters.  The hash of an [int] is the
    documented reduction modulo [sys.hash_info.modulus]. *)
Record runtime : Type := {
  hash_str : string -> Z;
  hash_None : Z;
  hash_tuple : list Z -> Z
}.

(** [sys.hash_info.modulus] on a 64-bit build. *)
Definition modulus : Z := 2 ^ 61 - 1.

(** [hash(n)] for an [int]: the sign times [abs(n) % modulus], with [-1]
    replaced by [-2]. *)
Definition hash_int (n : Z) : Z :=
  let h := Z.sgn n * (Z.abs n mod modulus) in
  if h =? -1 then -2 else h.

(** Tuple hash of CPython 3.8 and later (xxHash lanes over 64-bit words). *)
Definition XXPRIME_1 : Z := 11400714785074694791.
Definition XXPRIME_2 : Z := 14029467366897019727.
Definition XXPRIME_5 : Z := 2870177450012600261.
Definition u64 (z : Z) : Z := z mod 2 ^ 64.
Definition XXROTATE (x : Z) : Z :=
  Z.lor (u64 (Z.shiftl x 31)) (Z.shiftr x 33).

Definition tuplehash (items : list Z) : Z :=
  let acc :=
    fold_left
      (fun acc lane => u64 (XXROTATE (u64 (acc + u64 lane * XXPRIME_2)) * XXPRIME_1))
      items XXPRIME_5 in
  let acc := u64 (acc + Z.lxor (Z.of_nat (List.length items)) (Z.lxor XXPRIME_5 3527539)) in
  if acc =? 2 ^ 64 - 1 then 1546275796
  else if acc <? 2 ^ 63 then acc else acc - 2 ^ 64.

(** One runtime to evaluate with: CPython's tuple hash, and for the keyed
    string hash a polynomial in the character codes (the theorems below hold
    for every [runtime]). *)
Fixpoint sum_codes (s : string) : Z :=
  match s with
  | EmptyString => 0
  | String c s' => Z.of_nat (Ascii.nat_of_ascii c) + 31 * sum_codes s'
  end.

Definition sample_runtime : runtime :=
  {| hash_str := sum_codes; hash_None := 0; hash_tuple := tuplehash |}.

End PyHash.

(** ** pyoption/classes.py *)

Module Classes.

Import PyHash.
Local Open Scope Z_scope.

Inductive OptionType : Type := CALL | PUT.
Inductive ExerciseType : Type := EUROPEAN | AMERICAN.

Definition OptionType_name (t : OptionType) : string :=
  match t with CALL => "CALL" | PUT => "PUT" end.

Definition ExerciseType_name (t : ExerciseType) : string :=
  match t with EUROPEAN => "EUROPEAN" | AMERICAN => "AMERICAN" end.

(** An instance of [Option] or of one of its subclasses.  [option_type] is
    the class attribute: [None] on the base class, [CALL] on [CallOption],
    [PUT] on [PutOption]. *)
Record Option : Type := mkOption {
  option_type : option OptionType;
  exercise_price : Z;
  exercise_type : ExerciseType;
  time_to_expiration : option Z
}.

Definition CallOption (exercise_price : Z) (time_to_expiration : option Z)
    (exercise_type : ExerciseType) : Option :=
  mkOption (Some CALL) exercise_price exercise_type time_to_expiration.

Definition PutOption (exercise_price : Z) (time_to_expiration : option Z)
    (exercise_type : ExerciseType) : Option :=
  mkOption (Some PUT) exercise_price exercise_type time_to_expiration.

(** The triple that [__hash__] puts in a tuple. *)
Definition identity (o : Option) : option OptionType * Z * ExerciseType :=
  (option_type o, exercise_price o, exercise_type o).

(** Python's [max(a, b)]: the first argument unless the second is greater. *)
Definition py_max (a b : Z) : Z := if b >? a then b else a.

(** [Option.value] *)
Definition value (self : Option) (spot_price : Z) : result Z :=
  match option_type self with
  | Some CALL => Ok (py_max (spot_price - exercise_price self) 0)
  | Some PUT => Ok (py_max (exercise_price self - spot_price) 0)
  | None => Raise ValueError
  end.

Section WithRuntime.

Variable rt : runtime.

(** [Enum.__hash__] is [hash(self._name_)]. *)
Definition hash_OptionType (t : option OptionType) : Z :=
  match t with
  | Some t => hash_str rt (OptionType_name t)
  | None => hash_None rt
  end.

Definition hash_ExerciseType (t : ExerciseType) : Z :=
  hash_str rt (ExerciseType_name t).

(** [Option.__hash__] *)
Definition Option_hash (self : Option) : Z :=
  hash_tuple rt
    [hash_OptionType (option_type self);
     hash_int (exercise_price self);
     hash_ExerciseType (exercise_type self)].

(** [Option.__eq__] *)
Definition Option_eq (self other : Option) : bool :=
  Option_hash self =? Option_hash other.

(** *** The [dict] from Option to quantity

    Insertion-ordered; a key matches a stored key when [__eq__] says so (the
    stored hashes are then equal as well).  Storing under a key that matches
    keeps the stored key object and replaces the value. *)
Definition pydict : Type := list (Option * Z).

Fixpoint dict_find (d : pydict) (k : Option) : option Z :=
  match d with
  | [] => None
  | (k', v) :: d' => if Option_eq k' k then Some v else dict_find d' k
  end.

(** [d.get(k, default)] *)
Definition dict_get (d : pydict) (k : Option) (default : Z) : Z :=
  match dict_find d k with Some v => v | None => default end.

(** [d[k]] *)
Definition dict_getitem (d : pydict) (k : Option) : result Z :=
  match dict_find d k with Some v => Ok v | None => Raise KeyError end.

(** [d[k] = v] *)
Fixpoint dict_set (d : pydict) (k : Option) (v : Z) : pydict :=
  match d with
  | [] => [(k, v)]
  | (k', v') :: d' =>
      if Option_eq k' k then (k', v) :: d' else (k', v') :: dict_set d' k v
  end.

Definition dict_keys (d : pydict) : list Option := map fst d.

(** *** OptionPortfolio *)

Record OptionPortfolio : Type := mkPortfolio { options : pydict }.

(** [OptionPortfolio.__init__]: [{opt: cnt for opt, cnt in options}] *)
Definition OptionPortfolio_init (opts : list (Option * Z)) : OptionPortfolio :=
  mkPortfolio (fold_left (fun d oc => dict_set d (fst oc) (snd oc)) opts []).

(** [Option.__mul__], also [__rmul__] *)
Definition Option_mul (self : Option) (n : Z) : OptionPortfolio :=
  OptionPortfolio_init [(self, n)].

(** [Option.__neg__] *)
Definition Option_neg (self : Option) : OptionPortfolio :=
  OptionPortfolio_init [(self, -1)].

(** [Option.__add__] with an [Option] on the right *)
Definition Option_add (self other : Option) : OptionPortfolio :=
  OptionPortfolio_init [(self, 1); (other, 1)].

(** [Option.__sub__] with an [Option] on the right *)
Definition Option_sub (self other : Option) : OptionPortfolio :=
  OptionPortfolio_init [(self, 1); (other, -1)].

(** [OptionPortfolio.__mul__]: the loop over the keys; the receiver's dict
    after the call. *)
Definition Portfolio_mul (self : OptionPortfolio) (n : Z) : result OptionPortfolio :=
  d <- fold_left
         (fun acc opt => d <- acc ;; q <- dict_getitem d opt ;; Ok (dict_set d opt (q * n)))
         (dict_keys (options self)) (Ok (options self)) ;;
  Ok (mkPortfolio d).

(** [OptionPortfolio.__neg__] *)
Definition Portfolio_neg (self : OptionPortfolio) : result OptionPortfolio :=
  Portfolio_mul self (-1).

(** [OptionPortfolio.__add__] with an [Option] on the right *)
Definition Portfolio_add_option (self : OptionPortfolio) (other : Option) : OptionPortfolio :=
  mkPortfolio (dict_set (options self) other (dict_get (options self) other 0 + 1)).

(** [OptionPortfolio.__sub__] with an [Option] on the right *)
Definition Portfolio_sub_option (self : OptionPortfolio) (other : Option) : OptionPortfolio :=
  mkPortfolio (dict_set (options self) other (dict_get (options self) other 0 - 1)).

(** [OptionPortfolio.value]: [sum] starts from [0] and adds the legs in
    the dict's order. *)
Definition Portfolio_value (self : OptionPortfolio) (spot_price : Z) : result Z :=
  fold_left
    (fun acc oc => s <- acc ;; v <- value (fst oc) spot_price ;; Ok (s + v * snd oc))
    (options self) (Ok 0).

(** [OptionPortfolio.exercise_price] *)
Definition Portfolio_exercise_price (self : OptionPortfolio) : list Z :=
  map exercise_price (dict_keys (options self)).

(** *** The operators on a right operand of any type *)

(** The right operand of [+] and [-]: an Option, a portfolio, or an object
    of another type. *)
Inductive operand : Type :=
| AnOption (o : Option)
| APortfolio (p : OptionPortfolio)
| AnotherObject.

(** The loop of [OptionPortfolio.__add__] over
    [set(self.options.keys()) | set(other.options.keys())], for [other] an
    object other than [self].  The set is built before the loop; [order] is
    the order in which the interpreter iterates over it. *)
Definition Portfolio_add_portfolio (order : list Option)
    (self other : OptionPortfolio) : OptionPortfolio :=
  mkPortfolio
    (fold_left
       (fun d opt => dict_set d opt (dict_get d opt 0 + dict_get (options other) opt 0))
       order (options self)).

(** The same loop in [OptionPortfolio.__sub__]. *)
Definition Portfolio_sub_portfolio (order : list Option)
    (self other : OptionPortfolio) : OptionPortfolio :=
  mkPortfolio
    (fold_left
       (fun d opt => dict_set d opt (dict_get d opt 0 - dict_get (options other) opt 0))
       order (options self)).

(** The two loops when [other] is [self]: both reads are of the dict that
    the loop updates. *)
Definition Portfolio_add_self (order : list Option)
    (self : OptionPortfolio) : OptionPortfolio :=
  mkPortfolio
    (fold_left
       (fun d opt => dict_set d opt (dict_get d opt 0 + dict_get d opt 0))
       order (options self)).

Definition Portfolio_sub_self (order : list Option)
    (self : OptionPortfolio) : OptionPortfolio :=
  mkPortfolio
    (fold_left
       (fun d opt => dict_set d opt (dict_get d opt 0 - dict_get d opt 0))
       order (options self)).

(** [OptionPortfolio.__add__] *)
Definition Portfolio_add (order : list Option) (self : OptionPortfolio)
    (other : operand) : result OptionPortfolio :=
  match other with
  | AnOption o => Ok (Portfolio_add_option self o)
  | APortfolio p => Ok (Portfolio_add_portfolio order self p)
  | AnotherObject => Raise ValueError
  end.

(** [OptionPortfolio.__sub__] *)
Definition Portfolio_sub (order : list Option) (self : OptionPortfolio)
    (other : operand) : result OptionPortfolio :=
  match other with
  | AnOption o => Ok (Portfolio_sub_option self o)
  | APortfolio p => Ok (Portfolio_sub_portfolio order self p)
  | AnotherObject => Raise ValueError
  end.

(** [Option.__add__]: with a portfolio on the right it is [other + self];
    with another type neither branch is taken and the function returns
    [None]. *)
Definition Option_add_operand (self : Option) (other : operand)
    : result (option OptionPortfolio) :=
  match other with
  | AnOption o => Ok (Some (Option_add self o))
  | APortfolio p => Ok (Some (Portfolio_add_option p self))
  | AnotherObject => Ok None
  end.

(** [Option.__sub__]: with a portfolio on the right it is
    [-(other - self)]. *)
Definition Option_sub_operand (self : Option) (other : operand)
    : result (option OptionPortfolio) :=
  match other with
  | AnOption o => Ok (Some (Option_sub self o))
  | APortfolio p =>
      r <- Portfolio_neg (Portfolio_sub_option p self) ;; Ok (Some r)
  | AnotherObject => Ok None
  end.

(** *** Notions the statements below use *)

(** Some key of the list equals [k]. *)
Definition key_in (ks : list Option) (k : Option) : bool :=
  existsb (fun k' => Option_eq k' k) ks.

(** No two keys of the list are equal: what the keys of a [dict] and the
    items of a [set] always satisfy. *)
Fixpoint distinct_keys (ks : list Option) : bool :=
  match ks with
  | [] => true
  | k :: ks' => negb (key_in ks' k) && distinct_keys ks'
  end.

(** [order] is an iteration order of the union of the key sets of two
    dicts: its items are keys of the dicts, no two of them equal, and every
    key of the dicts equals one of them. *)
Definition enumerates_union (order : list Option) (d1 d2 : pydict) : Prop :=
  distinct_keys order = true /\
  (forall k, In k order -> In k (dict_keys d1 ++ dict_keys d2)) /\
  (forall k, In k (dict_keys d1 ++ dict_keys d2) -> key_in order k = true).

(** The quantity of the last pair of the list whose option equals [k]. *)
Definition last_quantity (opts : list (Option * Z)) (k : Option) : option Z :=
  option_map snd (find (fun oc => Option_eq (fst oc) k) (rev opts)).

(** The key object a store under [k] lands on: the stored key that equals
    [k], or [k] itself when there is none. *)
Definition stored_key (d : pydict) (k : Option) : Option :=
  match find (fun kq => Option_eq (fst kq) k) d with
  | Some kq => fst kq
  | None => k
  end.

(** The dict with every quantity multiplied by [n]. *)
Definition scale (n : Z) (d : pydict) : pydict :=
  map (fun kq => (fst kq, snd kq * n)) d.

(** The sum that [OptionPortfolio.value] computes, leg by leg. *)
Fixpoint legs_value (d : pydict) (spot_price : Z) : result Z :=
  match d with
  | [] => Ok 0
  | (k, q) :: d' =>
      v <- value k spot_price ;;
      r <- legs_value d' spot_price ;;
      Ok (v * q + r)
  end.

End WithRuntime.

End Classes.

(** ** pyoption/plotting.py *)

Module Plotting.

Import Classes.
Local Open Scope Z_scope.

(** The first argument of [calculate_profit_loss]: an Option or a
    portfolio. *)
Inductive instrument : Type :=
| IsOption (o : Option)
| IsPortfolio (p : OptionPortfolio).

(** Python's [min] and [max] of a list: [ValueError] on the empty list,
    otherwise the first smallest (largest) item. *)
Definition py_min (l : list Z) : result Z :=
  match l with
  | [] => Raise ValueError
  | k :: l' => Ok (fold_left (fun m k' => if k' <? m then k' else m) l' k)
  end.

Definition py_max_list (l : list Z) : result Z :=
  match l with
  | [] => Raise ValueError
  | k :: l' => Ok (fold_left (fun m k' => if k' >? m then k' else m) l' k)
  end.

(** The branch [price_range is None] of [calculate_profit_loss]: the
    attribute [exercise_price] is a number on an Option and is put in a
    list, and is the list of strikes on a portfolio; the range reaches 20
    below the smallest and 20 above the largest. *)
Definition default_price_range (p : instrument) : result (Z * Z) :=
  let exercise_price :=
    match p with
    | IsOption o => [exercise_price o]
    | IsPortfolio pf => Portfolio_exercise_price pf
    end in
  lo <- py_min exercise_price ;;
  hi <- py_max_list exercise_price ;;
  Ok (lo - 20, hi + 20).

End Plotting.

(** ** pyoption/pricing/gbs.py *)

Module Gbs.

Local Open Scope R_scope.

(** *** What the module imports *)

(** [math.sqrt]: [ValueError] on a negative argument. *)
Definition math_sqrt (a : R) : result R :=
  if Rlt_dec a 0 then Raise ValueError else Ok (sqrt a).

(** [math.log]: [ValueError] unless the argument is positive. *)
Definition math_log (a : R) : result R :=
  if Rle_dec a 0 then Raise ValueError else Ok (ln a).

(** [a / b] on Python floats: [ZeroDivisionError] when [b] is zero. *)
Definition py_div (a b : R) : result R :=
  if Req_dec_T b 0 then Raise ZeroDivisionError else Ok (a / b).

(** [scipy.stats.norm.pdf]: the density of the standard normal law. *)
Definition norm_pdf (a : R) : R := exp (- (a * a) / 2) / sqrt (2 * PI).

Lemma norm_pdf_continuity : continuity norm_pdf.
Proof.
  unfold norm_pdf.
  apply continuity_mult.
  - apply (continuity_comp (fun a => - (a * a) / 2) exp).
    + unfold Rdiv.
      apply continuity_mult.
      * apply continuity_opp.
        apply continuity_mult; apply derivable_continuous, derivable_id.
      * apply continuity_const. intros a b. reflexivity.
    + apply derivable_continuous, derivable_exp.
  - apply continuity_const. intros a b. reflexivity.
Qed.

(** The density is integrable on every segment, in either direction. *)
Definition norm_pdf_integrable (a b : R) : Riemann_integrable norm_pdf a b :=
  match Rle_dec a b with
  | left hab =>
      continuity_implies_RiemannInt hab (fun c _ => norm_pdf_continuity c)
  | right hab =>
      RiemannInt_P1
        (continuity_implies_RiemannInt
           (Rlt_le _ _ (Rnot_le_lt _ _ hab))
           (fun c _ => norm_pdf_continuity c))
  end.

(** [scipy.stats.norm.cdf]: one half plus the integral of the density from
    zero. *)
Definition norm_cdf (a : R) : R :=
  1 / 2 + RiemannInt (norm_pdf_integrable 0 a).

(** The objects the pricing functions return: [None], or a [dict] from
    string keys to floats, in insertion order. *)
Inductive pyobj : Type :=
| PyNone
| PyDict (items : list (string * R)).

Fixpoint lookup (items : list (string * R)) (key : string) : option R :=
  match items with
  | [] => None
  | (k, a) :: rest => if (k =? key)%string then Some a else lookup rest key
  end.

(** [o[key]]: [None] is not subscriptable. *)
Definition getitem (o : pyobj) (key : string) : result R :=
  match o with
  | PyNone => Raise TypeError
  | PyDict items =>
      match lookup items key with
      | Some a => Ok a
      | None => Raise KeyError
      end
  end.

(** *** _generalized_black_scholes *)

(** The six locals that each branch assigns. *)
Record locals : Type := mkLocals {
  value : R;
  delta : R;
  gamma : R;
  theta : R;
  vega : R;
  rho : R
}.

(** The branch [if option_type == "call"]. *)
Definition call_branch (fs x t r b v t_sqrt d1 d2 : R) : locals :=
  let pdf_d1 := norm_pdf d1 in
  let cdf_d1 := norm_cdf d1 in
  let cdf_d2 := norm_cdf d2 in
  {| value := fs * exp ((b - r) * t) * cdf_d1 - x * exp (- r * t) * cdf_d2;
     delta := exp ((b - r) * t) * cdf_d1;
     gamma := exp ((b - r) * t) * pdf_d1 / (fs * v * t_sqrt);
     theta := - (fs * v * exp ((b - r) * t) * pdf_d1) / (2 * t_sqrt)
              - (b - r) * fs * exp ((b - r) * t) * cdf_d1
              - r * x * exp (- r * t) * cdf_d2;
     vega := exp ((b - r) * t) * fs * t_sqrt * pdf_d1;
     rho := x * t * exp (- r * t) * cdf_d2 |}.

(** The [else] branch. *)
Definition put_branch (fs x t r b v t_sqrt d1 d2 : R) : locals :=
  let pdf_d1 := norm_pdf d1 in
  let cdf_d1 := norm_cdf (- d1) in
  let cdf_d2 := norm_cdf (- d2) in
  {| value := x * exp (- r * t) * cdf_d2 - (fs * exp ((b - r) * t) * cdf_d1);
     delta := - exp ((b - r) * t) * cdf_d1;
     gamma := exp ((b - r) * t) * pdf_d1 / (fs * v * t_sqrt);
     theta := - (fs * v * exp ((b - r) * t) * pdf_d1) / (2 * t_sqrt)
              + (b - r) * fs * exp ((b - r) * t) * cdf_d1
              + r * x * exp (- r * t) * cdf_d2;
     vega := exp ((b - r) * t) * fs * t_sqrt * pdf_d1;
     rho := - x * t * exp (- r * t) * cdf_d2 |}.

(** The [dict] that the [return] statement builds. *)
Definition greeks_dict (l : locals) : pyobj :=
  PyDict
    [("value"%string, value l);
     ("delta"%string, delta l);
     ("gamma"%string, gamma l);
     ("theta"%string, theta l);
     ("vega"%string, vega l / 100);
     ("rho"%string, rho l / 100)].

(** The [return] stands inside the [else] branch only: the call branch
    assigns its locals and falls off the end of the function. *)
Definition _generalized_black_scholes
    (option_type : string) (fs x t r b v : R) : result pyobj :=
  t_sqrt <- math_sqrt t ;;
  q <- py_div fs x ;;
  lg <- math_log q ;;
  d1 <- py_div (lg + (b + (v * v) / 2) * t) (v * t_sqrt) ;;
  let d2 := d1 - v * t_sqrt in
  if (option_type =? "call")%string then
    let l := call_branch fs x t r b v t_sqrt d1 d2 in
    Ok PyNone
  else
    let l := put_branch fs x t r b v t_sqrt d1 d2 in
    Ok (greeks_dict l).

(** *** The specializations *)

Definition black_scholes (option_type : string) (fs x t r v : R) : result pyobj :=
  _generalized_black_scholes option_type fs x t r r v.

Definition black_scholes_merton (option_type : string) (fs x t r q v : R) : result pyobj :=
  _generalized_black_scholes option_type fs x t r (r - q) v.

Definition black_scholes_commodity (option_type : string) (fs x t r v : R) : result pyobj :=
  _generalized_black_scholes option_type fs x t r 0 v.

Definition garman_kohlhagen (option_type : string) (fs x t r rf v : R) : result pyobj :=
  _generalized_black_scholes option_type fs x t r (r - rf) v.

(** *** scipy.optimize.bisect

    The root finder of the SciPy library, as its C routine and its Python
    wrapper run it with [full_output] off and [disp] on: the wrapper refuses
    a tolerance that is not positive and a negative iteration count; the
    routine evaluates [f] at both ends, returns an end where [f] is zero,
    refuses ends where [f] has the same sign ([ValueError]: f(a) and f(b)
    must have different signs), and otherwise halves the bracket at most
    [maxiter] times ([RuntimeError] when that is not enough).  An exception
    raised by [f] propagates. *)

(** The default relative tolerance, [4 * numpy.finfo(float).eps]. *)
Definition bisect_rtol : R := / 2 ^ 50.

Fixpoint bisect_loop (f : R -> result R) (iter : nat)
    (xa dm fa xtol rtol : R) : result R :=
  match iter with
  | O => Raise RuntimeError
  | S iter' =>
      let dm := dm * (1 / 2) in
      let xm := xa + dm in
      fm <- f xm ;;
      let xa := if Rle_dec 0 (fm * fa) then xm else xa in
      if Req_dec_T fm 0 then Ok xm
      else if Rlt_dec (Rabs dm) (xtol + rtol * Rabs xm) then Ok xm
      else bisect_loop f iter' xa dm fa xtol rtol
  end.

Definition bisect (f : R -> result R) (a b xtol : R) (maxiter : Z) : result R :=
  if Rle_dec xtol 0 then Raise ValueError
  else if (maxiter <? 0)%Z then Raise ValueError
  else
    fa <- f a ;;
    fb <- f b ;;
    if Req_dec_T fa 0 then Ok a
    else if Req_dec_T fb 0 then Ok b
    else if Rlt_dec 0 (fa * fb) then Raise ValueError
    else bisect_loop f (Z.to_nat maxiter) a (b - a) fa xtol bisect_rtol.

(** *** The implied-volatility solver *)

(** The keyword defaults of the three solver functions. *)
Definition default_max_iter : Z := 500.
Definition default_min_volatility : R := 1 / 100.
Definition default_max_volatility : R := 1.
Definition default_xtol : R := 1 / 1000.

(** The inner function [obj] of [_implied_volatility]. *)
Definition obj (option_type : string) (p fs x t r b : R) (v : R) : result R :=
  res <- _generalized_black_scholes option_type fs x t r b v ;;
  p_hat <- getitem res "value" ;;
  Ok (Rabs (p_hat - p)).

Definition _implied_volatility (option_type : string) (max_iter : Z)
    (min_volatility max_volatility xtol : R) (p fs x t r b : R) : result R :=
  bisect (obj option_type p fs x t r b) min_volatility max_volatility xtol max_iter.

(** The wrapper takes the four search settings and passes literals on. *)
Definition implied_volatility_stock (option_type : string) (max_iter : Z)
    (min_volatility max_volatility xtol : R) (p fs x t r q : R) : result R :=
  let b := r - q in
  _implied_volatility option_type 500 (1 / 100) 1 (1 / 1000) p fs x t r b.

Definition implied_volatility_commodity (option_type : string) (max_iter : Z)
    (min_volatility max_volatility xtol : R) (p fs x t r : R) : result R :=
  _implied_volatility option_type 500 (1 / 100) 1 (1 / 1000) p fs x t r 0.

(** *** Notions the statements below use *)

(** The values of [d1] and [d2] once the four guarded operations went
    through. *)
Definition d1_of (fs x t b v : R) : R :=
  (ln (fs / x) + (b + v * v / 2) * t) / (v * sqrt t).

Definition d2_of (fs x t b v : R) : R :=
  d1_of fs x t b v - v * sqrt t.

(** The inputs on which one of [math.sqrt], [fs / x], [math.log] and the
    division by [v * t_sqrt] raises. *)
Definition domain_error (fs x t v : R) : Prop :=
  t < 0 \/ x = 0 \/ fs / x <= 0 \/ v * sqrt t = 0.

(** What the function returns when nothing raises. *)
Definition returned (option_type : string) (fs x t r b v : R) : pyobj :=
  if (option_type =? "call")%string then PyNone
  else greeks_dict
         (put_branch fs x t r b v (sqrt t)
            (d1_of fs x t b v) (d2_of fs x t b v)).

(** The entry ['value'] of the mapping a put returns. *)
Definition put_price (fs x t r b v : R) : R :=
  value (put_branch fs x t r b v (sqrt t)
           (d1_of fs x t b v) (d2_of fs x t b v)).

(** The round trip of the specification with the solver's default
    settings: price at [v0], then solve for the volatility of that price. *)
Definition round_trip (option_type : string) (fs x t r b v0 : R) : result R :=
  res <- _generalized_black_scholes option_type fs x t r b v0 ;;
  p <- getitem res "value" ;;
  _implied_volatility option_type default_max_iter default_min_volatility
    default_max_volatility default_xtol p fs x t r b.

(** The left-hand side of the parity equation of the specification, as the
    Python expression [price(call)['value'] - price(put)['value']] over the
    generalized formula. *)
Definition parity_lhs (fs x t r b v : R) : result R :=
  c <- _generalized_black_scholes "call" fs x t r b v ;;
  c_value <- getitem c "value" ;;
  p <- _generalized_black_scholes "put" fs x t r b v ;;
  p_value <- getitem p "value" ;;
  Ok (c_value - p_value).

(** Inputs of moderate size: spot, strike, time and volatility between
    [10^-12] and [10^12] in absolute value, and the two exponents [r t] and
    [(b - r) t] at most 100 in absolute value.  On such inputs no float
    operation of the function overflows or underflows to zero, so what the
    model leaves out ([math.exp]'s [OverflowError], a quotient or a product
    that rounds to zero) does not occur; the statements that the function
    returns are made on these inputs. *)
Definition moderate (fs x t r b v : R) : Prop :=
  1 / 1000000000000 <= Rabs fs <= 1000000000000 /\
  1 / 1000000000000 <= Rabs x <= 1000000000000 /\
  1 / 1000000000000 <= t <= 1000000000000 /\
  1 / 1000000000000 <= Rabs v <= 1000000000000 /\
  Rabs (r * t) <= 100 /\
  Rabs ((b - r) * t) <= 100.

(** *** The specification's table of cost-of-carry rates *)

Inductive kind : Type := equity | equity_dividend | commodity | fx.

(** Section 4.2 of the specification: the carry each kind fixes, from the
    risk-free rate and the kind's extra rate (dividend yield or foreign
    rate). *)
Definition spec_cost_of_carry (k : kind) (r extra : R) : R :=
  match k with
  | equity => r
  | equity_dividend => r - extra
  | commodity => 0
  | fx => r - extra
  end.

Definition spec_price (k : kind) (option_type : string)
    (fs x t r v extra : R) : result pyobj :=
  _generalized_black_scholes option_type fs x t r (spec_cost_of_carry k r extra) v.

End Gbs.

(** * Properties of the instrument algebra *)

Module ClassesFacts.

Import PyHash Classes.
Local Open Scope Z_scope.

Lemma py_max_is_max (a b : Z) : py_max a b = Z.max a b.
Proof.
  unfold py_max.
  destruct (b >? a) eqn:E.
  - apply Z.gtb_lt in E. lia.
  - assert (b <= a) by (destruct (Z.gtb_spec b a); [discriminate | lia]). lia.
Qed.

(** C4: for every spot [s] and strike [k], [CallOption(k).value(s)] is
    [max(s - k, 0)] and [PutOption(k).value(s)] is [max(k - s, 0)], whatever
    the time to expiration and the exercise style. *)
Theorem value_is_intrinsic :
  forall (k s : Z) (tte : option Z) (et : ExerciseType),
    value (CallOption k tte et) s = Ok (Z.max (s - k) 0) /\
    value (PutOption k tte et) s = Ok (Z.max (k - s) 0).
Proof.
  intros k s tte et.
  unfold value; simpl.
  now rewrite !py_max_is_max.
Qed.

Section Equality.

Variable rt : runtime.

Lemma Option_eq_hash (a b : Option) :
  Option_eq rt a b = true <-> Option_hash rt a = Option_hash rt b.
Proof. unfold Option_eq. apply Z.eqb_eq. Qed.

Lemma Option_eq_refl (a : Option) : Option_eq rt a a = true.
Proof. now apply Option_eq_hash. Qed.

Lemma Option_hash_identity (a b : Option) :
  identity a = identity b -> Option_hash rt a = Option_hash rt b.
Proof.
  unfold identity, Option_hash.
  intros H. injection H as Ht Hp He.
  now rewrite Ht, Hp, He.
Qed.

Lemma Option_eq_congr (a b c : Option) :
  Option_hash rt a = Option_hash rt b ->
  Option_eq rt c a = Option_eq rt c b.
Proof. unfold Option_eq. now intros ->. Qed.

Lemma dict_find_congr (d : pydict) (a b : Option) :
  Option_hash rt a = Option_hash rt b ->
  dict_find rt d a = dict_find rt d b.
Proof.
  intros H.
  induction d as [|[k q] d IH]; simpl; [reflexivity|].
  now rewrite (Option_eq_congr a b k H), IH.
Qed.

Lemma dict_find_set_congr (d : pydict) (a b c : Option) (q : Z) :
  Option_hash rt a = Option_hash rt b ->
  dict_find rt (dict_set rt d a q) c = dict_find rt (dict_set rt d b q) c.
Proof.
  intros H.
  induction d as [|[k q'] d IH]; simpl.
  - unfold Option_eq. now rewrite H.
  - rewrite <- (Option_eq_congr a b k H).
    destruct (Option_eq rt k a); simpl; [reflexivity|].
    now rewrite IH.
Qed.

(** What the dict comprehension of [__init__] leaves when the second key
    equals the first: the first key object with the second quantity. *)
Lemma init_two_equal (a b : Option) (qa qb : Z) :
  Option_eq rt a b = true ->
  OptionPortfolio_init rt [(a, qa); (b, qb)] = mkPortfolio [(a, qb)].
Proof.
  intros H. unfold OptionPortfolio_init. simpl. now rewrite H.
Qed.

Lemma init_two_distinct (a b : Option) (qa qb : Z) :
  Option_eq rt a b = false ->
  OptionPortfolio_init rt [(a, qa); (b, qb)] = mkPortfolio [(a, qa); (b, qb)].
Proof.
  intros H. unfold OptionPortfolio_init. simpl. now rewrite H.
Qed.

(** Sum and difference of two equal Options, for every pair. *)
Lemma add_sub_equal (a b : Option) :
  Option_eq rt a b = true ->
  Option_add rt a b = mkPortfolio [(a, 1)] /\
  Option_sub rt a b = mkPortfolio [(a, -1)].
Proof.
  intros H. unfold Option_add, Option_sub.
  now rewrite !init_two_equal.
Qed.

(** The sibling path, [OptionPortfolio.__add__] and [__sub__] with an Option
    on the right, reads the stored quantity and merges. *)
Lemma portfolio_add_sub_merges (a b : Option) :
  Option_eq rt a b = true ->
  Portfolio_add_option rt (Option_mul rt a 1) b = mkPortfolio [(a, 2)] /\
  Portfolio_sub_option rt (Option_mul rt a 1) b = mkPortfolio [(a, 0)].
Proof.
  intros H.
  unfold Portfolio_add_option, Portfolio_sub_option, Option_mul,
    OptionPortfolio_init, dict_get.
  simpl. now rewrite H.
Qed.

End Equality.

(** The hashes of the strikes [1] and [2 ** 61] collide. *)
Lemma hash_int_collision : hash_int 1 = hash_int (2 ^ 61).
Proof. reflexivity. Qed.

Lemma Option_eq_collision (rt : runtime) (t : option OptionType)
    (et : ExerciseType) (ta tb : option Z) :
  Option_eq rt (mkOption t 1 et ta) (mkOption t (2 ^ 61) et tb) = true.
Proof.
  apply Option_eq_hash. unfold Option_hash. simpl exercise_price.
  now rewrite hash_int_collision.
Qed.

(** C2, at [a = b = CallOption(100)]: the dict comprehension stores the
    second quantity over the first, so [a + b] holds the leg at quantity 1
    (not 2) and [a - b] holds it at quantity -1 (not 0); [(a - b).value(s)]
    is [- max(s - 100, 0)] at every spot [s], which is -20 (not 0) at spot
    120. *)
Theorem sub_equal_options_at_100 :
  forall rt : runtime,
    let a := CallOption 100 None EUROPEAN in
    Option_add rt a a = mkPortfolio [(a, 1)] /\
    Option_sub rt a a = mkPortfolio [(a, -1)] /\
    (forall s, Portfolio_value (Option_sub rt a a) s = Ok (- Z.max (s - 100) 0)) /\
    Portfolio_value (Option_sub rt a a) 120 = Ok (-20).
Proof.
  intros rt a.
  destruct (add_sub_equal rt a a (Option_eq_refl rt a)) as [Ha Hs].
  rewrite Ha, Hs. repeat split.
  intros s. unfold Portfolio_value. simpl.
  rewrite py_max_is_max. f_equal. lia.
Qed.

(** C9, at the strikes [1] and [2 ** 61]: the two call options differ in
    their triple, yet their hashes are equal (the hash of an [int] is taken
    modulo [2 ** 61 - 1]) and [__eq__], which compares the hashes, makes
    them equal.  They then share one leg: [a - b] holds the leg [a] at
    quantity -1 and is worth -9 at spot 10, where the two payoffs are 9
    and 0. *)
Theorem colliding_strikes_compare_equal :
  forall rt : runtime,
    let a := CallOption 1 None EUROPEAN in
    let b := CallOption (2 ^ 61) None EUROPEAN in
    identity a <> identity b /\
    Option_hash rt a = Option_hash rt b /\
    Option_eq rt a b = true /\
    Option_sub rt a b = mkPortfolio [(a, -1)] /\
    value a 10 = Ok 9 /\
    value b 10 = Ok 0 /\
    Portfolio_value (Option_sub rt a b) 10 = Ok (-9).
Proof.
  intros rt a b.
  pose proof (Option_eq_collision rt (Some CALL) EUROPEAN None None) as He.
  fold a b in He.
  split; [discriminate|].
  split; [now apply Option_eq_hash|].
  split; [exact He|].
  destruct (add_sub_equal rt a b He) as [_ Hs].
  rewrite Hs. repeat split.
Qed.

(** Equality does not force agreement on the triple: the statement that it
    does is refuted by the same two options. *)
Lemma eq_not_only_if_same_identity :
  ~ (forall (rt : runtime) (a b : Option),
        Option_eq rt a b = true <-> identity a = identity b).
Proof.
  intros H.
  destruct (H sample_runtime
              (CallOption 1 None EUROPEAN)
              (CallOption (2 ^ 61) None EUROPEAN)) as [H1 _].
  specialize (H1 (Option_eq_collision sample_runtime (Some CALL) EUROPEAN None None)).
  discriminate H1.
Qed.

(** The half of the equality contract that the code keeps: two Options
    that agree on the triple [(option_type, exercise_price, exercise_type)]
    are equal and hash alike whatever their [time_to_expiration], and they
    are interchangeable as keys of a portfolio dict: lookups under either
    give the same result, before and after a store under either. *)
Theorem eq_if_same_identity :
  forall (rt : runtime) (a b : Option),
    (Option_eq rt a b = true <-> Option_hash rt a = Option_hash rt b) /\
    (identity a = identity b ->
       Option_eq rt a b = true /\
       Option_hash rt a = Option_hash rt b /\
       (forall d, dict_find rt d a = dict_find rt d b) /\
       (forall d q c, dict_find rt (dict_set rt d a q) c
                      = dict_find rt (dict_set rt d b q) c)).
Proof.
  intros rt a b. split; [apply Option_eq_hash|].
  intros H. pose proof (Option_hash_identity rt a b H) as Hh.
  repeat split.
  - now apply Option_eq_hash.
  - exact Hh.
  - intros d. now apply dict_find_congr.
  - intros d q c. now apply dict_find_set_congr.
Qed.

Lemma eq_if_same_identity_witness :
  let a := CallOption 100 (Some 1) EUROPEAN in
  let b := CallOption 100 (Some 2) EUROPEAN in
  Option_eq sample_runtime a b = true /\
  dict_find sample_runtime [(a, 3)] b = Some 3 /\
  dict_set sample_runtime [(a, 3)] b 5 = [(a, 5)].
Proof.
  intros a b.
  destruct (eq_if_same_identity sample_runtime a b) as [_ H].
  destruct (H eq_refl) as [He _].
  split; [exact He|].
  split; cbn [dict_find dict_set]; rewrite He; reflexivity.
Defined.

End ClassesFacts.

(** * Properties of the pricing engine *)

Module GbsFacts.

Import Gbs.
Local Open Scope R_scope.

Lemma raises_Raise (A : Type) (e : exn) : raises (@Raise A e).
Proof. now exists e. Qed.

Lemma not_raises_Ok (A : Type) (a : A) : ~ raises (Ok a).
Proof. intros [e H]. discriminate H. Qed.

#[local] Hint Resolve raises_Raise : core.

(** Case analysis on the guards of [math_sqrt], [math_log] and [py_div],
    in the order the function meets them. *)
Ltac case_guards :=
  repeat match goal with
    | |- context [if Rlt_dec ?a ?b then _ else _] =>
        destruct (Rlt_dec a b); cbn [bind]
    | |- context [if Rle_dec ?a ?b then _ else _] =>
        destruct (Rle_dec a b); cbn [bind]
    | |- context [if Req_dec_T ?a ?b then _ else _] =>
        destruct (Req_dec_T a b); cbn [bind]
    end.

Lemma gbs_raises (option_type : string) (fs x t r b v : R) :
  domain_error fs x t v ->
  raises (_generalized_black_scholes option_type fs x t r b v).
Proof.
  unfold domain_error, _generalized_black_scholes, math_sqrt, py_div, math_log.
  intros H. case_guards; auto. exfalso. tauto.
Qed.

Lemma gbs_returns (option_type : string) (fs x t r b v : R) :
  ~ domain_error fs x t v ->
  _generalized_black_scholes option_type fs x t r b v
  = Ok (returned option_type fs x t r b v).
Proof.
  unfold domain_error, _generalized_black_scholes, math_sqrt, py_div, math_log,
    returned, d2_of, d1_of.
  intros H. case_guards; try tauto.
  destruct (option_type =? "call")%string; reflexivity.
Qed.

Lemma domain_error_dec (fs x t v : R) :
  domain_error fs x t v \/ ~ domain_error fs x t v.
Proof.
  unfold domain_error.
  destruct (Rlt_dec t 0); [tauto|].
  destruct (Req_dec_T x 0); [tauto|].
  destruct (Rle_dec (fs / x) 0); [tauto|].
  destruct (Req_dec_T (v * sqrt t) 0); tauto.
Qed.

(** The mathematical domain has no domain error. *)
Lemma in_domain_no_error (fs x t v : R) :
  0 < fs -> 0 < x -> 0 < t -> 0 < v -> ~ domain_error fs x t v.
Proof.
  intros Hfs Hx Ht Hv [H|[H|[H|H]]].
  - lra.
  - lra.
  - pose proof (Rdiv_lt_0_compat fs x Hfs Hx). lra.
  - pose proof (sqrt_lt_R0 t Ht).
    pose proof (Rmult_lt_0_compat v (sqrt t) Hv H0). lra.
Qed.

(** The divisors of the two unguarded divisions, in [gamma] and [theta],
    are not zero where the branches are reached. *)
Lemma branch_divisors_nonzero (fs x t v : R) :
  ~ domain_error fs x t v -> fs * v * sqrt t <> 0 /\ 2 * sqrt t <> 0.
Proof.
  unfold domain_error. intros H.
  assert (Hv : v * sqrt t <> 0) by tauto.
  assert (Hfs : fs <> 0).
  { intros ->. apply H. right. right. left. unfold Rdiv. rewrite Rmult_0_l. lra. }
  split.
  - rewrite Rmult_assoc. now apply Rmult_integral_contrapositive_currified.
  - intros H2. apply Hv. replace (sqrt t) with 0 by lra. ring.
Qed.

(** On every input the call branch returns [None] or an operation before it
    raises: never a dict. *)
Lemma call_never_returns_dict (fs x t r b v : R) (o : pyobj) :
  _generalized_black_scholes "call" fs x t r b v = Ok o -> o = PyNone.
Proof.
  destruct (domain_error_dec fs x t v) as [H|H].
  - destruct (gbs_raises "call" fs x t r b v H) as [e He].
    rewrite He. discriminate.
  - rewrite (gbs_returns "call" fs x t r b v H). unfold returned. simpl.
    now intros [= <-].
Qed.

(** What a call with an [option_type] other than ['call'] returns, when it
    returns. *)
Lemma put_returns_dict (option_type : string) (fs x t r b v : R) (o : pyobj) :
  option_type <> "call"%string ->
  _generalized_black_scholes option_type fs x t r b v = Ok o ->
  o = greeks_dict (put_branch fs x t r b v (sqrt t)
                     (d1_of fs x t b v) (d2_of fs x t b v)).
Proof.
  intros Hot H.
  destruct (domain_error_dec fs x t v) as [Hd|Hd].
  - destruct (gbs_raises option_type fs x t r b v Hd) as [e He].
    rewrite He in H. discriminate H.
  - rewrite (gbs_returns option_type fs x t r b v Hd) in H.
    unfold returned in H.
    destruct (String.eqb_spec option_type "call"); [contradiction|].
    now injection H as <-.
Qed.

(** C1: whatever [_generalized_black_scholes] or one of the four
    specializations returns when called with ['call'] is [None], never a
    mapping; whatever the function returns when called with another
    [option_type] (the [else] branch, which prices a put) is the mapping with
    the keys value, delta, gamma, theta, vega and rho, where vega and rho
    are the branch's locals divided by 100.  And the function does return:
    on every input of the domain of moderate size the call gives [None] and
    the put gives the mapping. *)
Theorem call_returns_None :
  forall fs x t r b v : R,
    (forall o : pyobj,
        _generalized_black_scholes "call" fs x t r b v = Ok o -> o = PyNone) /\
    (forall (q rf : R) (o : pyobj),
        black_scholes "call" fs x t r v = Ok o \/
        black_scholes_merton "call" fs x t r q v = Ok o \/
        black_scholes_commodity "call" fs x t r v = Ok o \/
        garman_kohlhagen "call" fs x t r rf v = Ok o ->
        o = PyNone) /\
    (forall (option_type : string) (o : pyobj),
        option_type <> "call"%string ->
        _generalized_black_scholes option_type fs x t r b v = Ok o ->
        let l := put_branch fs x t r b v (sqrt t)
                   (d1_of fs x t b v) (d2_of fs x t b v) in
        o = PyDict
              [("value"%string, value l);
               ("delta"%string, delta l);
               ("gamma"%string, gamma l);
               ("theta"%string, theta l);
               ("vega"%string, vega l / 100);
               ("rho"%string, rho l / 100)]) /\
    (0 < fs -> 0 < x -> 0 < v -> moderate fs x t r b v ->
     _generalized_black_scholes "call" fs x t r b v = Ok PyNone /\
     exists items,
       _generalized_black_scholes "put" fs x t r b v = Ok (PyDict items)) /\
    (0 < fs -> 0 < x -> 0 < v ->
     (moderate fs x t r r v -> black_scholes "call" fs x t r v = Ok PyNone) /\
     (forall q, moderate fs x t r (r - q) v ->
                black_scholes_merton "call" fs x t r q v = Ok PyNone) /\
     (moderate fs x t r 0 v ->
      black_scholes_commodity "call" fs x t r v = Ok PyNone) /\
     (forall rf, moderate fs x t r (r - rf) v ->
                 garman_kohlhagen "call" fs x t r rf v = Ok PyNone)).
Proof.
  intros fs x t r b v.
  assert (Hmod : forall b', 0 < fs -> 0 < x -> 0 < v -> moderate fs x t r b' v ->
                            ~ domain_error fs x t v).
  { intros b' Hfs Hx Hv (_ & _ & [Ht _] & _).
    apply in_domain_no_error; lra. }
  split; [intros o; apply call_never_returns_dict|].
  split.
  { unfold black_scholes, black_scholes_merton, black_scholes_commodity,
      garman_kohlhagen.
    intros q rf o [H|[H|[H|H]]]; now apply call_never_returns_dict in H. }
  split;
    [intros option_type o Hot H l;
     exact (put_returns_dict option_type fs x t r b v o Hot H)|].
  split.
  - intros Hfs Hx Hv Hm.
    rewrite !gbs_returns by (now apply (Hmod b)).
    split; [reflexivity|]. eexists. reflexivity.
  - intros Hfs Hx Hv.
    unfold black_scholes, black_scholes_merton, black_scholes_commodity,
      garman_kohlhagen.
    split; [|split; [|split]]; intros;
      (rewrite gbs_returns by (eapply Hmod; eassumption)); reflexivity.
Qed.

Lemma call_returns_None_witness :
  _generalized_black_scholes "call" 100 100 1 (1 / 20) (1 / 20) (1 / 5)
  = Ok PyNone /\
  exists items,
    _generalized_black_scholes "put" 100 100 1 (1 / 20) (1 / 20) (1 / 5)
    = Ok (PyDict items).
Proof.
  destruct (call_returns_None 100 100 1 (1 / 20) (1 / 20) (1 / 5))
    as (_ & _ & _ & H & _).
  apply H; try lra.
  unfold moderate, Rabs.
  repeat match goal with |- context [Rcase_abs ?a] => destruct (Rcase_abs a) end;
    lra.
Defined.

(** C6: each specialization is the generalized formula at the cost of carry
    that the specification's table gives for its kind: [r] for
    [black_scholes], [r - q] for [black_scholes_merton], [0] for
    [black_scholes_commodity] and [r - rf] for [garman_kohlhagen]. *)
Theorem specializations_fix_carry :
  forall (option_type : string) (fs x t r v q rf extra : R),
    black_scholes option_type fs x t r v
    = _generalized_black_scholes option_type fs x t r r v /\
    black_scholes_merton option_type fs x t r q v
    = _generalized_black_scholes option_type fs x t r (r - q) v /\
    black_scholes_commodity option_type fs x t r v
    = _generalized_black_scholes option_type fs x t r 0 v /\
    garman_kohlhagen option_type fs x t r rf v
    = _generalized_black_scholes option_type fs x t r (r - rf) v /\
    black_scholes option_type fs x t r v
    = spec_price equity option_type fs x t r v extra /\
    black_scholes_merton option_type fs x t r q v
    = spec_price equity_dividend option_type fs x t r v q /\
    black_scholes_commodity option_type fs x t r v
    = spec_price commodity option_type fs x t r v extra /\
    garman_kohlhagen option_type fs x t r rf v
    = spec_price fx option_type fs x t r v rf.
Proof. intros. repeat split. Qed.

(** The four guarded operations raise exactly when [t <= 0], [v = 0] or
    [fs * x <= 0]. *)
Lemma domain_error_iff (fs x t v : R) :
  domain_error fs x t v <-> t <= 0 \/ v = 0 \/ fs * x <= 0.
Proof.
  unfold domain_error. split.
  - intros [H|[H|[H|H]]].
    + left. lra.
    + right. right. subst x. lra.
    + destruct (Req_dec_T x 0) as [Hx|Hx]; [right; right; subst x; lra|].
      right. right.
      replace (fs * x) with (fs / x * (x * x)) by (field; exact Hx).
      assert (0 < x * x) by nra. nra.
    + destruct (Rmult_integral _ _ H) as [Hv|Hs]; [tauto|].
      left. destruct (Rle_dec t 0) as [Ht|Ht]; [exact Ht|].
      pose proof (sqrt_lt_R0 t ltac:(lra)). lra.
  - intros [H|[H|H]].
    + destruct (Rlt_dec t 0) as [Ht|Ht]; [tauto|].
      right. right. right.
      replace t with 0 by lra. rewrite sqrt_0. ring.
    + right. right. right. subst v. ring.
    + destruct (Req_dec_T x 0) as [Hx|Hx]; [tauto|].
      right. right. left.
      replace (fs / x) with (fs * x * / (x * x)) by (field; exact Hx).
      assert (0 < x * x) by nra.
      pose proof (Rinv_0_lt_compat _ H0). nra.
Qed.

Lemma raises_iff_domain_error (option_type : string) (fs x t r b v : R) :
  raises (_generalized_black_scholes option_type fs x t r b v)
  <-> domain_error fs x t v.
Proof.
  split.
  - intros Hr. destruct (domain_error_dec fs x t v) as [H|H]; [exact H|].
    rewrite (gbs_returns option_type fs x t r b v H) in Hr.
    now apply not_raises_Ok in Hr.
  - apply gbs_raises.
Qed.

(** C8, refuted as stated: a put with volatility [-1/5] (spot and strike
    100, one year) is outside the domain and is priced without an error. *)
Lemma negative_volatility_is_priced :
  ~ (forall (option_type : string) (fs x t r b v : R),
        t <= 0 \/ v <= 0 \/ fs <= 0 \/ x <= 0 ->
        raises (_generalized_black_scholes option_type fs x t r b v)).
Proof.
  intros H.
  specialize (H "put"%string 100 100 1 (1 / 20) (1 / 20) (- (1 / 5))
                ltac:(right; left; lra)).
  apply raises_iff_domain_error, domain_error_iff in H. lra.
Qed.

Lemma moderate_no_error (fs x t r b v : R) :
  moderate fs x t r b v -> 0 < fs * x -> ~ domain_error fs x t v.
Proof.
  intros (_ & _ & [Ht _] & [Hv _] & _) Hfx.
  rewrite domain_error_iff. intros [H|[H|H]]; try lra.
  subst v. rewrite Rabs_R0 in Hv. lra.
Qed.

(** C8, amended: the engine makes no check of its own.  It fails with an
    error on every input with [t <= 0], [v = 0] or [fs * x <= 0] (a zero
    spot or strike, or a spot and a strike of opposite signs), because
    [math.sqrt], [math.log] or a division raises.  On the other inputs
    outside the domain, a negative volatility or a spot and a strike that
    are both negative, it does not: when of moderate size they are priced
    like inputs of the domain, [None] for a call and the mapping for a
    put. *)
Theorem raises_outside_domain :
  forall (option_type : string) (fs x t r b v : R),
    (t <= 0 \/ v = 0 \/ fs * x <= 0 ->
     raises (_generalized_black_scholes option_type fs x t r b v)) /\
    (moderate fs x t r b v -> 0 < fs * x ->
     _generalized_black_scholes option_type fs x t r b v
     = Ok (returned option_type fs x t r b v)).
Proof.
  intros option_type fs x t r b v. split.
  - intros H. apply gbs_raises. now apply domain_error_iff.
  - intros Hm Hfx. apply gbs_returns. now apply (moderate_no_error fs x t r b v).
Qed.

Lemma raises_outside_domain_witness :
  raises (_generalized_black_scholes "put" 100 100 0 (1 / 20) (1 / 20) (1 / 5)) /\
  _generalized_black_scholes "put" (- 100) (- 100) 1 (1 / 20) (1 / 20) (- (1 / 5))
  = Ok (returned "put" (- 100) (- 100) 1 (1 / 20) (1 / 20) (- (1 / 5))).
Proof.
  split.
  - apply (raises_outside_domain "put" 100 100 0 (1 / 20) (1 / 20) (1 / 5)).
    left. lra.
  - apply (raises_outside_domain
             "put" (- 100) (- 100) 1 (1 / 20) (1 / 20) (- (1 / 5))); [|lra].
    unfold moderate, Rabs.
    repeat match goal with |- context [Rcase_abs ?a] => destruct (Rcase_abs a) end;
      lra.
Defined.

(** C5, at every input: the left-hand side of the parity equation cannot be
    evaluated, because the call price is [None] and [None['value']] raises
    (or the pricing raised before); at spot and strike 100, one year, rates
    1/20 and volatility 1/5 the exception is the [TypeError]. *)
Theorem parity_lhs_raises :
  (forall fs x t r b v : R, raises (parity_lhs fs x t r b v)) /\
  parity_lhs 100 100 1 (1 / 20) (1 / 20) (1 / 5) = Raise TypeError.
Proof.
  split.
  - intros fs x t r b v. unfold parity_lhs.
    destruct (domain_error_dec fs x t v) as [H|H].
    + destruct (gbs_raises "call" fs x t r b v H) as [e He].
      rewrite He. simpl. auto.
    + rewrite (gbs_returns "call" fs x t r b v H). simpl. auto.
  - unfold parity_lhs.
    rewrite gbs_returns by (apply in_domain_no_error; lra).
    reflexivity.
Qed.

(** *** The standard normal law *)

Lemma norm_pdf_pos (a : R) : 0 < norm_pdf a.
Proof.
  unfold norm_pdf. apply Rdiv_lt_0_compat.
  - apply exp_pos.
  - apply sqrt_lt_R0. pose proof PI_RGT_0. lra.
Qed.

(** The density decreases with the distance from zero. *)
Lemma norm_pdf_antitone (a c : R) :
  Rabs a <= Rabs c -> norm_pdf c <= norm_pdf a.
Proof.
  intros H. unfold norm_pdf.
  apply Rmult_le_compat_r.
  - left. apply Rinv_0_lt_compat, sqrt_lt_R0. pose proof PI_RGT_0. lra.
  - assert (Hsq : a * a <= c * c).
    { apply (Rsqr_le_abs_1 a c H). }
    assert (Hle : - (c * c) / 2 <= - (a * a) / 2) by lra.
    destruct Hle as [Hlt|Heq].
    + left. now apply exp_increasing.
    + right. now rewrite Heq.
Qed.

(** The difference of two values of the distribution function is the
    integral of the density between the two points. *)
Lemma norm_cdf_diff (a c : R) :
  norm_cdf c - norm_cdf a = RiemannInt (norm_pdf_integrable a c).
Proof.
  unfold norm_cdf.
  rewrite <- (RiemannInt_P26 (norm_pdf_integrable a 0)
                (norm_pdf_integrable 0 c) (norm_pdf_integrable a c)).
  rewrite (RiemannInt_P8 (norm_pdf_integrable a 0) (norm_pdf_integrable 0 a)).
  ring.
Qed.

Lemma norm_cdf_0 : norm_cdf 0 = 1 / 2.
Proof. unfold norm_cdf. rewrite RiemannInt_P9. ring. Qed.

(** The distribution function increases strictly. *)
Lemma norm_cdf_increasing (a c : R) : a < c -> norm_cdf a < norm_cdf c.
Proof.
  intros Hac.
  set (m := Rmax (Rabs a) (Rabs c)).
  assert (Hb : norm_pdf m * (c - a) <= RiemannInt (norm_pdf_integrable a c)
               <= norm_pdf 0 * (c - a)).
  { apply RiemannInt_const_bound; [lra|].
    intros y Hy. split; apply norm_pdf_antitone.
    - assert (Hy' : Rabs y <= m) by (apply RmaxAbs; lra).
      rewrite (Rabs_right m); [exact Hy'|].
      pose proof (Rabs_pos y). lra.
    - rewrite Rabs_R0. apply Rabs_pos. }
  pose proof (norm_pdf_pos m) as Hm.
  pose proof (norm_cdf_diff a c) as Hd.
  assert (0 < norm_pdf m * (c - a)) by (apply Rmult_lt_0_compat; lra).
  lra.
Qed.

(** The density is even. *)
Lemma norm_pdf_even (a : R) : norm_pdf (- a) = norm_pdf a.
Proof. unfold norm_pdf. now replace (- a * - a) with (a * a) by ring. Qed.

(** Near a point the density stays within [eps] of its value there. *)
Lemma norm_pdf_near (a eps : R) :
  0 < eps ->
  exists alp : R, 0 < alp /\
    forall y, Rabs (y - a) < alp -> Rabs (norm_pdf y - norm_pdf a) < eps.
Proof.
  intros Heps.
  destruct (norm_pdf_continuity a eps Heps) as [alp [Halp H]].
  exists alp. split; [exact Halp|].
  intros y Hy.
  destruct (Req_dec_T a y) as [<-|Hne].
  - rewrite Rminus_diag, Rabs_R0. exact Heps.
  - apply (H y). split; [|exact Hy].
    split; [exact I|exact Hne].
Qed.

(** The distribution function has the density as its derivative. *)
Lemma norm_cdf_derivative (a : R) : derivable_pt_lim norm_cdf a (norm_pdf a).
Proof.
  intros eps Heps.
  destruct (norm_pdf_near a (eps / 2) ltac:(lra)) as [alp [Halp Hnear]].
  exists (mkposreal alp Halp). simpl. intros h Hh Hlt.
  assert (Hbound : forall y, Rmin a (a + h) <= y <= Rmax a (a + h) ->
            norm_pdf a - eps / 2 <= norm_pdf y <= norm_pdf a + eps / 2).
  { intros y Hy.
    assert (Hy' : Rabs (y - a) < alp).
    { unfold Rmin, Rmax in Hy. unfold Rabs in *.
      destruct (Rle_dec a (a + h)); destruct (Rcase_abs h);
        destruct (Rcase_abs (y - a)); lra. }
    specialize (Hnear y Hy'). unfold Rabs in Hnear.
    destruct (Rcase_abs (norm_pdf y - norm_pdf a)); lra. }
  set (q := (norm_cdf (a + h) - norm_cdf a) / h).
  assert (Hq : norm_pdf a - eps / 2 <= q <= norm_pdf a + eps / 2).
  { assert (Hqh : norm_cdf (a + h) - norm_cdf a = q * h)
      by (unfold q; field; exact Hh).
    destruct (Rlt_dec 0 h) as [Hpos|Hneg].
    - pose proof (RiemannInt_const_bound
                    (l := norm_pdf a - eps / 2) (u := norm_pdf a + eps / 2)
                    (norm_pdf_integrable a (a + h)) ltac:(lra)) as Hb.
      rewrite <- norm_cdf_diff in Hb.
      assert (Hb' : (norm_pdf a - eps / 2) * (a + h - a)
                    <= norm_cdf (a + h) - norm_cdf a
                    <= (norm_pdf a + eps / 2) * (a + h - a)).
      { apply Hb. intros y Hy. apply Hbound.
        rewrite Rmin_left, Rmax_right by lra. lra. }
      rewrite Hqh in Hb'. nra.
    - assert (Hneg' : h < 0) by lra.
      pose proof (RiemannInt_const_bound
                    (l := norm_pdf a - eps / 2) (u := norm_pdf a + eps / 2)
                    (norm_pdf_integrable (a + h) a) ltac:(lra)) as Hb.
      rewrite <- norm_cdf_diff in Hb.
      assert (Hb' : (norm_pdf a - eps / 2) * (a - (a + h))
                    <= norm_cdf a - norm_cdf (a + h)
                    <= (norm_pdf a + eps / 2) * (a - (a + h))).
      { apply Hb. intros y Hy. apply Hbound.
        rewrite Rmin_right, Rmax_left by lra. lra. }
      replace (norm_cdf a - norm_cdf (a + h)) with (- (q * h)) in Hb' by lra.
      nra. }
  fold q. unfold Rabs. destruct (Rcase_abs (q - norm_pdf a)); lra.
Qed.

(** The symmetry of the law: [cdf(-a) = 1 - cdf(a)]. *)
Lemma norm_cdf_opp (a : R) : norm_cdf (- a) = 1 - norm_cdf a.
Proof.
  set (g := fun c => norm_cdf c + norm_cdf (- c)).
  set (g' := fun c => norm_pdf c + norm_pdf (- c) * - 1).
  assert (Hg : forall c, derivable_pt_lim g c (g' c)).
  { intros c. unfold g, g'.
    apply derivable_pt_lim_plus; [apply norm_cdf_derivative|].
    apply (derivable_pt_lim_comp (fun c => - c) norm_cdf).
    - replace (-1) with (- (1)) by ring.
      apply derivable_pt_lim_opp, derivable_pt_lim_id.
    - apply norm_cdf_derivative. }
  assert (Hzero : forall c, g' c = 0)
    by (intros c; unfold g'; rewrite norm_pdf_even; ring).
  assert (Hconst : forall c, 0 < c -> g c = g 0).
  { intros c Hc.
    destruct (MVT_cor2 g g' 0 c Hc (fun d _ => Hg d)) as [d [Hd _]].
    rewrite Hzero in Hd. lra. }
  assert (Hg0 : g 0 = 1).
  { unfold g. rewrite Ropp_0, norm_cdf_0. lra. }
  destruct (Rtotal_order a 0) as [Hlt|[Heq|Hgt]].
  - pose proof (Hconst (- a) ltac:(lra)) as H.
    unfold g in H at 1. rewrite Ropp_involutive in H. lra.
  - subst a. rewrite Ropp_0, norm_cdf_0. lra.
  - pose proof (Hconst a Hgt) as H. unfold g in H at 1. lra.
Qed.

(** The locals named [value] of the two branches satisfy the parity
    equation; only the call branch's never leaves the function. *)
Lemma branch_values_parity (fs x t r b v t_sqrt d1 d2 : R) :
  value (call_branch fs x t r b v t_sqrt d1 d2)
  - value (put_branch fs x t r b v t_sqrt d1 d2)
  = fs * exp ((b - r) * t) - x * exp (- r * t).
Proof.
  unfold call_branch, put_branch. simpl.
  rewrite !norm_cdf_opp. ring.
Qed.

(** *** The solver *)

(** The objective is an absolute value. *)
Lemma obj_nonneg (option_type : string) (p fs x t r b v y : R) :
  obj option_type p fs x t r b v = Ok y -> 0 <= y.
Proof.
  unfold obj.
  destruct (_generalized_black_scholes option_type fs x t r b v) as [o|e];
    simpl; [|discriminate].
  destruct (getitem o "value") as [p_hat|e]; simpl; [|discriminate].
  intros [= <-]. apply Rabs_pos.
Qed.

(** With a call the objective raises: [None] has no ['value']. *)
Lemma obj_call_raises (p fs x t r b v : R) :
  raises (obj "call" p fs x t r b v).
Proof.
  unfold obj.
  destruct (_generalized_black_scholes "call" fs x t r b v) as [o|e] eqn:E;
    simpl; auto.
  apply call_never_returns_dict in E. subst o. simpl. auto.
Qed.

Section BisectNonneg.

Variable f : R -> result R.
Hypothesis f_nonneg : forall v y, f v = Ok y -> 0 <= y.

(** On a function that is never negative the routine returns an end of the
    bracket or raises: the loop is not reached. *)
Lemma bisect_nonneg_cases (a b xtol : R) (maxiter : Z) :
  bisect f a b xtol maxiter = Ok a /\ f a = Ok 0
  \/ bisect f a b xtol maxiter = Ok b /\ f b = Ok 0
  \/ raises (bisect f a b xtol maxiter).
Proof.
  unfold bisect.
  destruct (Rle_dec xtol 0); [right; right; apply raises_Raise|].
  destruct (maxiter <? 0)%Z; [right; right; apply raises_Raise|].
  destruct (f a) as [fa|e] eqn:Ea; simpl; [|right; right; apply raises_Raise].
  destruct (f b) as [fb|e] eqn:Eb; simpl; [|right; right; apply raises_Raise].
  destruct (Req_dec_T fa 0) as [Ha|Ha]; [left; now subst fa|].
  destruct (Req_dec_T fb 0) as [Hb|Hb]; [right; left; now subst fb|].
  pose proof (f_nonneg a fa Ea). pose proof (f_nonneg b fb Eb).
  destruct (Rlt_dec 0 (fa * fb)) as [Hp|Hp]; [right; right; apply raises_Raise|].
  exfalso. apply Hp. apply Rmult_lt_0_compat; lra.
Qed.

Lemma bisect_nonneg_raises (a b xtol : R) (maxiter : Z) :
  f a <> Ok 0 -> f b <> Ok 0 -> raises (bisect f a b xtol maxiter).
Proof.
  intros Ha Hb.
  destruct (bisect_nonneg_cases a b xtol maxiter) as [[_ H]|[[_ H]|H]];
    [contradiction|contradiction|exact H].
Qed.

Lemma bisect_nonneg_end (a b xtol root : R) (maxiter : Z) :
  bisect f a b xtol maxiter = Ok root ->
  (root = a /\ f a = Ok 0) \/ (root = b /\ f b = Ok 0).
Proof.
  intros H.
  destruct (bisect_nonneg_cases a b xtol maxiter) as [[H1 H2]|[[H1 H2]|[e He]]].
  - left. rewrite H1 in H. now injection H as <-.
  - right. rewrite H1 in H. now injection H as <-.
  - rewrite He in H. discriminate H.
Qed.

End BisectNonneg.

(** A volatility the solver returns is an end of its bracket, and a zero of
    the objective. *)
Lemma solver_returns_end (option_type : string) (max_iter : Z)
    (min_volatility max_volatility xtol p fs x t r b root : R) :
  _implied_volatility option_type max_iter min_volatility max_volatility
    xtol p fs x t r b = Ok root ->
  (root = min_volatility /\ obj option_type p fs x t r b min_volatility = Ok 0)
  \/ (root = max_volatility /\ obj option_type p fs x t r b max_volatility = Ok 0).
Proof.
  unfold _implied_volatility.
  apply bisect_nonneg_end, obj_nonneg.
Qed.

(** C10: the objective of [_implied_volatility] is never negative; when it
    is not zero at [min_volatility] nor at [max_volatility] the solver
    raises; and a volatility it returns is one of the two ends of the
    bracket, where the objective is zero, never a point inside. *)
Theorem abs_objective_defeats_bisect :
  forall (option_type : string) (max_iter : Z)
         (min_volatility max_volatility xtol p fs x t r b : R),
    (forall v y, obj option_type p fs x t r b v = Ok y -> 0 <= y) /\
    (obj option_type p fs x t r b min_volatility <> Ok 0 ->
     obj option_type p fs x t r b max_volatility <> Ok 0 ->
     raises (_implied_volatility option_type max_iter
               min_volatility max_volatility xtol p fs x t r b)) /\
    (forall root,
        _implied_volatility option_type max_iter
          min_volatility max_volatility xtol p fs x t r b = Ok root ->
        root = min_volatility \/ root = max_volatility).
Proof.
  intros. unfold _implied_volatility.
  pose proof (obj_nonneg option_type p fs x t r b) as Hn.
  split; [exact Hn|]. split.
  - now apply bisect_nonneg_raises.
  - intros root H.
    destruct (bisect_nonneg_end _ Hn _ _ _ _ _ H) as [[-> _]|[-> _]]; auto.
Qed.

(** The objective on the [else] branch, where nothing raises. *)
Lemma obj_put (p fs x t r b v : R) :
  ~ domain_error fs x t v ->
  obj "put" p fs x t r b v = Ok (Rabs (put_price fs x t r b v - p)).
Proof.
  intros H. unfold obj. now rewrite (gbs_returns "put" fs x t r b v H).
Qed.

(** When the objective is positive at both ends the routine refuses the
    bracket. *)
Lemma bisect_same_sign (f : R -> result R) (a b xtol fa fb : R) (maxiter : Z) :
  0 < xtol -> (0 <= maxiter)%Z ->
  f a = Ok fa -> f b = Ok fb -> 0 < fa -> 0 < fb ->
  bisect f a b xtol maxiter = Raise ValueError.
Proof.
  intros Hx Hm Ha Hb Hfa Hfb. unfold bisect.
  destruct (Rle_dec xtol 0); [lra|].
  destruct (Z.ltb_spec maxiter 0); [lia|].
  rewrite Ha, Hb. simpl.
  destruct (Req_dec_T fa 0); [lra|].
  destruct (Req_dec_T fb 0); [lra|].
  destruct (Rlt_dec 0 (fa * fb)) as [Hp|Hp]; [reflexivity|].
  exfalso. apply Hp. now apply Rmult_lt_0_compat.
Qed.

(** When the objective is zero at the first end the routine returns it. *)
Lemma bisect_zero_at_start (f : R -> result R) (a b xtol fb : R) (maxiter : Z) :
  0 < xtol -> (0 <= maxiter)%Z ->
  f a = Ok 0 -> f b = Ok fb ->
  bisect f a b xtol maxiter = Ok a.
Proof.
  intros Hx Hm Ha Hb. unfold bisect.
  destruct (Rle_dec xtol 0); [lra|].
  destruct (Z.ltb_spec maxiter 0); [lia|].
  rewrite Ha, Hb. simpl.
  destruct (Req_dec_T 0 0); [reflexivity|contradiction].
Qed.

(** *** At the money: spot and strike 100, one year, zero rates *)

Lemma atm_no_error (v : R) : v <> 0 -> ~ domain_error 100 100 1 v.
Proof. intros Hv. rewrite domain_error_iff. lra. Qed.

Lemma atm_d1 (v : R) : v <> 0 -> d1_of 100 100 1 0 v = v / 2.
Proof.
  intros Hv. unfold d1_of.
  replace (100 / 100) with 1 by lra.
  rewrite ln_1, sqrt_1. now field.
Qed.

Lemma atm_put_price (v : R) :
  v <> 0 ->
  put_price 100 100 1 0 0 v = 100 * (norm_cdf (v / 2) - norm_cdf (- (v / 2))).
Proof.
  intros Hv. unfold put_price, d2_of, put_branch. simpl.
  rewrite (atm_d1 v Hv), sqrt_1.
  replace (- 0 * 1) with 0 by ring.
  replace ((0 - 0) * 1) with 0 by ring.
  rewrite exp_0.
  replace (- (v / 2 - v * 1)) with (v / 2) by lra.
  ring.
Qed.

(** There the put price increases strictly with the volatility. *)
Lemma atm_put_price_increasing (v w : R) :
  0 < v < w -> put_price 100 100 1 0 0 v < put_price 100 100 1 0 0 w.
Proof.
  intros [Hv Hw].
  rewrite !atm_put_price by lra.
  pose proof (norm_cdf_increasing (v / 2) (w / 2) ltac:(lra)).
  pose proof (norm_cdf_increasing (- (w / 2)) (- (v / 2)) ltac:(lra)).
  lra.
Qed.

(** The objective for the price at volatility [v0] is positive at every
    other positive volatility. *)
Lemma atm_obj_positive (v0 v : R) :
  0 < v0 -> 0 < v -> v <> v0 ->
  exists y, obj "put" (put_price 100 100 1 0 0 v0) 100 100 1 0 0 v = Ok y /\ 0 < y.
Proof.
  intros H0 Hv Hne.
  rewrite obj_put by (apply atm_no_error; lra).
  eexists. split; [reflexivity|].
  apply Rabs_pos_lt.
  destruct (Rtotal_order v v0) as [Hlt|[Heq|Hgt]]; [|contradiction|].
  - pose proof (atm_put_price_increasing v v0 ltac:(lra)). lra.
  - pose proof (atm_put_price_increasing v0 v ltac:(lra)). lra.
Qed.

Lemma atm_obj_zero (v0 : R) :
  v0 <> 0 ->
  obj "put" (put_price 100 100 1 0 0 v0) 100 100 1 0 0 v0 = Ok 0.
Proof.
  intros H0. rewrite obj_put by (now apply atm_no_error).
  now rewrite Rminus_diag, Rabs_R0.
Qed.

(** With a root strictly inside the bracket the solver raises. *)
Lemma atm_solver_raises (v0 lo hi xtol : R) (max_iter : Z) :
  0 < lo < v0 -> v0 < hi -> 0 < xtol -> (0 <= max_iter)%Z ->
  _implied_volatility "put" max_iter lo hi xtol
    (put_price 100 100 1 0 0 v0) 100 100 1 0 0
  = Raise ValueError.
Proof.
  intros Hlo Hhi Hx Hm. unfold _implied_volatility.
  destruct (atm_obj_positive v0 lo) as [fa [Ha Hfa]]; [lra|lra|lra|].
  destruct (atm_obj_positive v0 hi) as [fb [Hb Hfb]]; [lra|lra|lra|].
  now apply (bisect_same_sign _ lo hi xtol fa fb max_iter).
Qed.

Lemma abs_objective_defeats_bisect_witness :
  raises (_implied_volatility "put" 500 (1 / 100) 1 (1 / 1000)
            (put_price 100 100 1 0 0 (1 / 5)) 100 100 1 0 0).
Proof.
  apply (abs_objective_defeats_bisect "put" 500 (1 / 100) 1 (1 / 1000)
           (put_price 100 100 1 0 0 (1 / 5)) 100 100 1 0 0).
  - destruct (atm_obj_positive (1 / 5) (1 / 100)) as [y [Hy Hpos]];
      [lra|lra|lra|].
    rewrite Hy. intros [= Hz]. lra.
  - destruct (atm_obj_positive (1 / 5) 1) as [y [Hy Hpos]]; [lra|lra|lra|].
    rewrite Hy. intros [= Hz]. lra.
Defined.

(** C3, at the money with [v0 = 1/5], and on every input: the round trip
    with a put raises the [ValueError] of the bracket check, although the
    price at [1/5] lies between the prices at the two ends; with a call it
    raises the [TypeError] of [None['value']]; and on no input does the
    round trip return a volatility other than an end of the bracket, [1/100]
    or [1]. *)
Theorem round_trip_fails :
  round_trip "put" 100 100 1 0 0 (1 / 5) = Raise ValueError /\
  round_trip "call" 100 100 1 0 0 (1 / 5) = Raise TypeError /\
  (forall (option_type : string) (fs x t r b v0 : R),
      match round_trip option_type fs x t r b v0 with
      | Ok root => root = 1 / 100 \/ root = 1
      | Raise _ => True
      end).
Proof.
  split; [|split].
  - unfold round_trip.
    rewrite (gbs_returns "put" 100 100 1 0 0 (1 / 5))
      by (apply atm_no_error; lra).
    change (getitem (returned "put" 100 100 1 0 0 (1 / 5)) "value")
      with (Ok (put_price 100 100 1 0 0 (1 / 5))).
    cbn [bind].
    apply atm_solver_raises;
      unfold default_min_volatility, default_max_volatility, default_xtol,
        default_max_iter; try lra; lia.
  - unfold round_trip.
    rewrite (gbs_returns "call" 100 100 1 0 0 (1 / 5))
      by (apply atm_no_error; lra).
    reflexivity.
  - intros option_type fs x t r b v0. unfold round_trip.
    destruct (_generalized_black_scholes option_type fs x t r b v0) as [o|e];
      simpl; [|exact I].
    destruct (getitem o "value") as [p|e]; simpl; [|exact I].
    destruct (_implied_volatility _ _ _ _ _ p fs x t r b) as [root|e] eqn:E;
      [|exact I].
    apply solver_returns_end in E.
    unfold default_min_volatility, default_max_volatility in E. tauto.
Qed.

(** C7, on every input and at one: the stock and commodity wrappers call the
    solver with the literals [500], [1/100], [1] and [1/1000] whatever
    settings they are given, while [_implied_volatility] itself hands its
    settings to the search.  At the money, for the put price at volatility
    [1/2] and the bracket [[1/2, 1]], the solver called directly returns
    [1/2]; the wrappers, given the same bracket, search [[1/100, 1]] and
    raise. *)
Theorem wrappers_ignore_settings :
  (forall (option_type : string) (max_iter : Z)
          (min_volatility max_volatility xtol p fs x t r q : R),
      _implied_volatility option_type max_iter min_volatility max_volatility
        xtol p fs x t r (r - q)
      = bisect (obj option_type p fs x t r (r - q))
          min_volatility max_volatility xtol max_iter /\
      implied_volatility_stock option_type max_iter min_volatility
        max_volatility xtol p fs x t r q
      = _implied_volatility option_type default_max_iter
          default_min_volatility default_max_volatility default_xtol
          p fs x t r (r - q) /\
      implied_volatility_commodity option_type max_iter min_volatility
        max_volatility xtol p fs x t r
      = _implied_volatility option_type default_max_iter
          default_min_volatility default_max_volatility default_xtol
          p fs x t r 0) /\
  (let p := put_price 100 100 1 0 0 (1 / 2) in
   _implied_volatility "put" 500 (1 / 2) 1 (1 / 1000) p 100 100 1 0 0
   = Ok (1 / 2) /\
   implied_volatility_stock "put" 500 (1 / 2) 1 (1 / 1000) p 100 100 1 0 0
   = Raise ValueError /\
   implied_volatility_commodity "put" 500 (1 / 2) 1 (1 / 1000) p 100 100 1 0
   = Raise ValueError).
Proof.
  split; [intros; repeat split|].
  intros p. split; [|split].
  - unfold _implied_volatility, p.
    destruct (atm_obj_positive (1 / 2) 1) as [fb [Hb _]]; [lra|lra|lra|].
    apply (bisect_zero_at_start _ (1 / 2) 1 (1 / 1000) fb 500);
      [lra|lia|apply atm_obj_zero; lra|exact Hb].
  - unfold implied_volatility_stock, p.
    replace (0 - 0) with 0 by ring.
    apply atm_solver_raises; try lra; lia.
  - unfold implied_volatility_commodity, p.
    apply atm_solver_raises; try lra; lia.
Qed.

End GbsFacts.

(** * Properties of the portfolio operators *)

Module PortfolioFacts.

Import PyHash Classes ClassesFacts.
Local Open Scope Z_scope.

Section Dict.

Variable rt : runtime.

Lemma Option_eq_false (a b : Option) :
  Option_eq rt a b = false <-> Option_hash rt a <> Option_hash rt b.
Proof. unfold Option_eq. apply Z.eqb_neq. Qed.

(** Turns every equality test between options into a statement about their
    hashes, and closes the goal by congruence. *)
Ltac by_hashes :=
  repeat match goal with
    | H : Option_eq rt _ _ = true |- _ => apply Option_eq_hash in H
    | H : Option_eq rt _ _ = false |- _ => apply Option_eq_false in H
    | |- Option_eq rt _ _ = true => apply Option_eq_hash
    | |- Option_eq rt _ _ = false => apply Option_eq_false
    end;
  congruence.

Lemma Option_eq_sym (a b : Option) : Option_eq rt a b = Option_eq rt b a.
Proof. unfold Option_eq. apply Z.eqb_sym. Qed.

(** Equal keys answer every equality test alike. *)
Lemma Option_eq_left (a b c : Option) :
  Option_eq rt a b = true -> Option_eq rt a c = Option_eq rt b c.
Proof.
  intros H. apply Option_eq_hash in H. unfold Option_eq. now rewrite H.
Qed.

(** *** Lookup after a store *)

Lemma dict_find_set (d : pydict) (k k' : Option) (q : Z) :
  dict_find rt (dict_set rt d k q) k'
  = if Option_eq rt k k' then Some q else dict_find rt d k'.
Proof.
  induction d as [|[k0 q0] d IH]; simpl.
  - reflexivity.
  - destruct (Option_eq rt k0 k) eqn:E0; simpl.
    + rewrite (Option_eq_left k0 k k' E0).
      destruct (Option_eq rt k k'); reflexivity.
    + rewrite IH.
      destruct (Option_eq rt k0 k') eqn:E1; [|reflexivity].
      assert (Option_eq rt k k' = false) as -> by by_hashes.
      reflexivity.
Qed.

Lemma dict_get_set (d : pydict) (k k' : Option) (q default : Z) :
  dict_get rt (dict_set rt d k q) k' default
  = if Option_eq rt k k' then q else dict_get rt d k' default.
Proof.
  unfold dict_get. rewrite dict_find_set.
  destruct (Option_eq rt k k'); reflexivity.
Qed.

Lemma dict_get_congr (d : pydict) (a b : Option) (default : Z) :
  Option_eq rt a b = true ->
  dict_get rt d a default = dict_get rt d b default.
Proof.
  intros H. unfold dict_get.
  now rewrite (dict_find_congr rt d a b (proj1 (Option_eq_hash rt a b) H)).
Qed.

(** *** The keys after a store *)

Lemma key_in_find (d : pydict) (k : Option) :
  key_in rt (dict_keys d) k = false <-> dict_find rt d k = None.
Proof.
  induction d as [|[k0 q0] d IH]; simpl; [tauto|].
  destruct (Option_eq rt k0 k); simpl; [split; discriminate|exact IH].
Qed.

Lemma key_in_congr (ks : list Option) (a b : Option) :
  Option_eq rt a b = true -> key_in rt ks a = key_in rt ks b.
Proof.
  intros H. induction ks as [|k ks IH]; simpl; [reflexivity|].
  rewrite IH. f_equal.
  rewrite (Option_eq_sym k a), (Option_eq_sym k b).
  now apply Option_eq_left.
Qed.

Lemma dict_keys_set (d : pydict) (k : Option) (q : Z) :
  dict_keys (dict_set rt d k q)
  = if key_in rt (dict_keys d) k then dict_keys d else dict_keys d ++ [k].
Proof.
  induction d as [|[k0 q0] d IH]; simpl; [reflexivity|].
  destruct (Option_eq rt k0 k); simpl; [reflexivity|].
  rewrite IH. destruct (key_in rt (dict_keys d) k); reflexivity.
Qed.

Lemma key_in_app (ks1 ks2 : list Option) (k : Option) :
  key_in rt (ks1 ++ ks2) k = key_in rt ks1 k || key_in rt ks2 k.
Proof. unfold key_in. apply existsb_app. Qed.

Lemma distinct_keys_snoc (ks : list Option) (k : Option) :
  distinct_keys rt ks = true -> key_in rt ks k = false ->
  distinct_keys rt (ks ++ [k]) = true.
Proof.
  induction ks as [|k0 ks IH]; simpl; [reflexivity|].
  intros Hd Hk.
  apply andb_true_iff in Hd. destruct Hd as [H0 Hd].
  apply orb_false_iff in Hk. destruct Hk as [Hk0 Hk].
  rewrite IH by assumption.
  rewrite key_in_app. simpl.
  apply negb_true_iff in H0. rewrite H0. simpl.
  rewrite orb_false_r, Option_eq_sym, Hk0. reflexivity.
Qed.

(** A store keeps the keys pairwise distinct. *)
Lemma distinct_keys_set (d : pydict) (k : Option) (q : Z) :
  distinct_keys rt (dict_keys d) = true ->
  distinct_keys rt (dict_keys (dict_set rt d k q)) = true.
Proof.
  intros H. rewrite dict_keys_set.
  destruct (key_in rt (dict_keys d) k) eqn:E; [exact H|].
  now apply distinct_keys_snoc.
Qed.

(** *** The dict comprehension of [__init__] *)

Lemma init_snoc (opts : list (Option * Z)) (oc : Option * Z) :
  options (OptionPortfolio_init rt (opts ++ [oc]))
  = dict_set rt (options (OptionPortfolio_init rt opts)) (fst oc) (snd oc).
Proof. unfold OptionPortfolio_init. simpl. now rewrite fold_left_app. Qed.

Lemma init_find (opts : list (Option * Z)) (k : Option) :
  dict_find rt (options (OptionPortfolio_init rt opts)) k
  = last_quantity rt opts k.
Proof.
  induction opts as [|oc opts IH] using rev_ind; [reflexivity|].
  rewrite init_snoc, dict_find_set, IH.
  unfold last_quantity. rewrite rev_app_distr. simpl.
  destruct (Option_eq rt (fst oc) k); reflexivity.
Qed.

Lemma init_distinct (opts : list (Option * Z)) :
  distinct_keys rt (dict_keys (options (OptionPortfolio_init rt opts))) = true.
Proof.
  induction opts as [|oc opts IH] using rev_ind; [reflexivity|].
  rewrite init_snoc. now apply distinct_keys_set.
Qed.

(** *** The value as a sum over the legs *)

Lemma value_fold (d : pydict) (s : Z) (acc : result Z) :
  fold_left
    (fun acc oc => a <- acc ;; v <- value (fst oc) s ;; Ok (a + v * snd oc))
    d acc
  = a <- acc ;; r <- legs_value d s ;; Ok (a + r).
Proof.
  revert acc. induction d as [|[k q] d IH]; intros acc; simpl.
  - destruct acc as [a|e]; simpl; [f_equal; lia|reflexivity].
  - rewrite IH. destruct acc as [a|e]; simpl; [|reflexivity].
    destruct (value k s) as [v|e]; simpl; [|reflexivity].
    destruct (legs_value d s) as [r|e]; simpl; [f_equal; lia|reflexivity].
Qed.

Lemma Portfolio_value_legs (p : OptionPortfolio) (s : Z) :
  Portfolio_value p s = legs_value (options p) s.
Proof.
  unfold Portfolio_value. rewrite value_fold. simpl.
  destruct (legs_value (options p) s); reflexivity.
Qed.

(** A store under either of two keys with one hash is the same store when
    the key is present. *)
Lemma dict_set_found (d : pydict) (a b : Option) (q : Z) :
  Option_hash rt a = Option_hash rt b ->
  dict_find rt d a <> None ->
  dict_set rt d a q = dict_set rt d b q.
Proof.
  intros Hh. induction d as [|[k0 q0] d IH]; simpl; [congruence|].
  rewrite <- (Option_eq_congr rt a b k0 Hh).
  destruct (Option_eq rt k0 a); [reflexivity|].
  intros H. now rewrite IH.
Qed.

(** *** Adding and subtracting one option *)

Lemma legs_value_store (d : pydict) (o : Option) (c s : Z) :
  legs_value (dict_set rt d o (dict_get rt d o 0 + c)) s
  = a <- legs_value d s ;; b <- value (stored_key rt d o) s ;; Ok (a + b * c).
Proof.
  induction d as [|[k0 q0] d IH].
  - unfold dict_get, stored_key. simpl.
    destruct (value o s) as [v|e]; simpl; [f_equal; lia|reflexivity].
  - unfold dict_get, stored_key in *. simpl.
    destruct (Option_eq rt k0 o) eqn:E; simpl.
    + destruct (value k0 s) as [v|e]; simpl; [|reflexivity].
      destruct (legs_value d s) as [r|e]; simpl; [f_equal; lia|reflexivity].
    + rewrite IH.
      destruct (value k0 s) as [v|e]; simpl; [|reflexivity].
      destruct (legs_value d s) as [r|e]; simpl; [|reflexivity].
      destruct (value _ s) as [b|e]; simpl; [f_equal; lia|reflexivity].
Qed.

(** *** Scaling *)

Lemma dict_keys_scale (n : Z) (d : pydict) : dict_keys (scale n d) = dict_keys d.
Proof. unfold dict_keys, scale. rewrite map_map. reflexivity. Qed.

Lemma dict_find_scale (n : Z) (d : pydict) (k : Option) :
  dict_find rt (scale n d) k = option_map (fun q => q * n) (dict_find rt d k).
Proof.
  induction d as [|[k0 q0] d IH]; simpl; [reflexivity|].
  destruct (Option_eq rt k0 k); [reflexivity|exact IH].
Qed.

Lemma dict_get_scale (n : Z) (d : pydict) (k : Option) :
  dict_get rt (scale n d) k 0 = dict_get rt d k 0 * n.
Proof.
  unfold dict_get. rewrite dict_find_scale.
  destruct (dict_find rt d k); reflexivity.
Qed.

Lemma legs_value_scale (n : Z) (d : pydict) (s : Z) :
  legs_value (scale n d) s = r <- legs_value d s ;; Ok (r * n).
Proof.
  induction d as [|[k q] d IH]; simpl; [reflexivity|].
  rewrite IH.
  destruct (value k s) as [v|e]; simpl; [|reflexivity].
  destruct (legs_value d s) as [r|e]; simpl; [f_equal; lia|reflexivity].
Qed.

Lemma dict_find_app (pre d : pydict) (k : Option) :
  key_in rt (dict_keys pre) k = false ->
  dict_find rt (pre ++ d) k = dict_find rt d k.
Proof.
  induction pre as [|[k0 q0] pre IH]; simpl; [reflexivity|].
  intros H. apply orb_false_iff in H. destruct H as [H0 H].
  rewrite H0. now apply IH.
Qed.

Lemma dict_set_app (pre d : pydict) (k : Option) (q : Z) :
  key_in rt (dict_keys pre) k = false ->
  dict_set rt (pre ++ d) k q = pre ++ dict_set rt d k q.
Proof.
  induction pre as [|[k0 q0] pre IH]; simpl; [reflexivity|].
  intros H. apply orb_false_iff in H. destruct H as [H0 H].
  rewrite H0. now rewrite IH.
Qed.

Lemma distinct_keys_middle (ks1 ks2 : list Option) (k : Option) :
  distinct_keys rt (ks1 ++ k :: ks2) = true -> key_in rt ks1 k = false.
Proof.
  induction ks1 as [|k1 ks1 IH]; simpl; [reflexivity|].
  intros H. apply andb_true_iff in H. destruct H as [H1 H].
  apply negb_true_iff in H1. rewrite key_in_app in H1. simpl in H1.
  apply orb_false_iff in H1. destruct H1 as [_ H1].
  apply orb_false_iff in H1. destruct H1 as [H1 _].
  rewrite Option_eq_sym, H1. simpl. now apply IH.
Qed.

(** The loop of [__mul__], from a point where the legs [pre] are done. *)
Lemma mul_loop (n : Z) (suf pre : pydict) :
  distinct_keys rt (dict_keys (pre ++ suf)) = true ->
  fold_left
    (fun acc opt =>
       d <- acc ;; q <- dict_getitem rt d opt ;; Ok (dict_set rt d opt (q * n)))
    (dict_keys suf) (Ok (pre ++ suf))
  = Ok (pre ++ scale n suf).
Proof.
  revert pre. induction suf as [|[k q] suf IH]; intros pre Hd; simpl.
  - reflexivity.
  - assert (Hk : key_in rt (dict_keys pre) k = false).
    { unfold dict_keys in *. rewrite map_app in Hd. simpl in Hd.
      now apply distinct_keys_middle in Hd. }
    unfold dict_getitem. rewrite (dict_find_app pre _ k Hk). simpl.
    rewrite Option_eq_refl. simpl.
    rewrite (dict_set_app pre _ k _ Hk). simpl.
    rewrite Option_eq_refl.
    replace (pre ++ (k, q * n) :: suf) with ((pre ++ [(k, q * n)]) ++ suf)
      by (now rewrite <- app_assoc).
    rewrite IH.
    + now rewrite <- app_assoc.
    + unfold dict_keys in *. rewrite !map_app in *. simpl in *.
      now rewrite <- app_assoc.
Qed.

Lemma Portfolio_mul_scale (p : OptionPortfolio) (n : Z) :
  distinct_keys rt (dict_keys (options p)) = true ->
  Portfolio_mul rt p n = Ok (mkPortfolio (scale n (options p))).
Proof.
  intros H. unfold Portfolio_mul.
  pose proof (mul_loop n (options p) [] H) as Hl. simpl in Hl.
  unfold pydict in *. now rewrite Hl.
Qed.

(** *** The loop over the union of two key sets *)

Lemma dict_find_key (d : pydict) (k : Option) (q : Z) :
  dict_find rt d k = Some q ->
  exists k0, In k0 (dict_keys d) /\ Option_eq rt k0 k = true.
Proof.
  induction d as [|[k0 q0] d IH]; simpl; [discriminate|].
  destruct (Option_eq rt k0 k) eqn:E.
  - intros _. exists k0. auto.
  - intros H. destruct (IH H) as [k1 [Hin He]]. exists k1. auto.
Qed.

Section UnionLoop.

Variable f : Z -> Z -> Z.
Variable other : pydict.

Lemma union_loop_get (order : list Option) (d : pydict) (k : Option) :
  distinct_keys rt order = true ->
  dict_get rt
    (fold_left
       (fun d opt => dict_set rt d opt (f (dict_get rt d opt 0) (dict_get rt other opt 0)))
       order d) k 0
  = if key_in rt order k
    then f (dict_get rt d k 0) (dict_get rt other k 0)
    else dict_get rt d k 0.
Proof.
  revert d. induction order as [|a order IH]; intros d Hd; simpl.
  - reflexivity.
  - apply andb_true_iff in Hd. destruct Hd as [Ha Hd].
    apply negb_true_iff in Ha.
    rewrite (IH _ Hd), dict_get_set.
    destruct (Option_eq rt a k) eqn:E; simpl.
    + rewrite <- (key_in_congr order a k E), Ha.
      now rewrite (dict_get_congr d a k 0 E), (dict_get_congr other a k 0 E).
    + reflexivity.
Qed.

Lemma union_absent (order : list Option) (d1 d2 : pydict) (k : Option) :
  enumerates_union rt order d1 d2 ->
  key_in rt order k = false ->
  dict_get rt d1 k 0 = 0 /\ dict_get rt d2 k 0 = 0.
Proof.
  intros (_ & _ & Hcover) Hk.
  assert (Hnone : forall d, (forall k0, In k0 (dict_keys d) -> key_in rt order k0 = true) ->
                            dict_get rt d k 0 = 0).
  { intros d Hd. unfold dict_get.
    destruct (dict_find rt d k) as [q|] eqn:E; [|reflexivity].
    destruct (dict_find_key d k q E) as [k0 [Hin He]].
    rewrite <- (key_in_congr order k0 k He), (Hd k0 Hin) in Hk. discriminate. }
  split; apply Hnone; intros k0 Hin; apply Hcover, in_or_app; auto.
Qed.

End UnionLoop.

(** *** Legs of the base class *)

Lemma value_raises_ValueError (o : Option) (s : Z) (e : exn) :
  value o s = Raise e -> e = ValueError /\ option_type o = None.
Proof.
  unfold value. destruct (option_type o) as [[|]|]; try discriminate.
  now intros [= <-].
Qed.

Lemma legs_value_raises (d : pydict) (s : Z) (e : exn) :
  legs_value d s = Raise e -> e = ValueError.
Proof.
  induction d as [|[k q] d IH]; simpl; [discriminate|].
  destruct (value k s) as [v|e'] eqn:E; simpl.
  - destruct (legs_value d s) as [r|e'']; simpl; [discriminate|].
    intros [= <-]. now apply IH.
  - intros [= <-]. now apply value_raises_ValueError in E.
Qed.

Lemma legs_value_base (d : pydict) (s : Z) (o : Option) (q : Z) :
  In (o, q) d -> option_type o = None -> legs_value d s = Raise ValueError.
Proof.
  intros Hin Hnone.
  destruct (legs_value d s) as [r|e] eqn:E.
  - exfalso. revert r E.
    induction d as [|[k q0] d IH]; [contradiction|].
    simpl. intros r.
    destruct Hin as [[= -> ->]|Hin].
    + unfold value. rewrite Hnone. discriminate.
    + destruct (value k s); simpl; [|discriminate].
      destruct (legs_value d s) as [r'|]; simpl; [|discriminate].
      intros _. now apply (IH Hin r').
  - now rewrite (legs_value_raises d s e E).
Qed.

End Dict.

(** ** The portfolio operators *)

(** X1: [OptionPortfolio.__init__] keeps, for every class of equal options of
    its argument, one leg whose quantity is that of the last pair of the
    class: quantities of equal options are never added up.  No two legs of
    the result are equal. *)
Theorem init_keeps_last_quantity :
  forall (rt : runtime) (opts : list (Option * Z)) (k : Option),
    dict_find rt (options (OptionPortfolio_init rt opts)) k
    = last_quantity rt opts k /\
    distinct_keys rt (dict_keys (options (OptionPortfolio_init rt opts))) = true.
Proof.
  intros rt opts k. split; [apply init_find|apply init_distinct].
Qed.

(** X2: [portfolio + option] raises by one the quantity read under every key
    equal to the option and leaves the other quantities as they are;
    [portfolio - option] lowers it by one; so the quantities of
    [(portfolio + option) - option] are those of the portfolio, for a key
    that was absent a leg of quantity 0 apart. *)
Theorem add_sub_option_quantities :
  forall (rt : runtime) (p : OptionPortfolio) (o k : Option),
    dict_get rt (options (Portfolio_add_option rt p o)) k 0
    = dict_get rt (options p) k 0 + (if Option_eq rt o k then 1 else 0) /\
    dict_get rt (options (Portfolio_sub_option rt p o)) k 0
    = dict_get rt (options p) k 0 - (if Option_eq rt o k then 1 else 0) /\
    dict_get rt
      (options (Portfolio_sub_option rt (Portfolio_add_option rt p o) o)) k 0
    = dict_get rt (options p) k 0.
Proof.
  intros rt p o k.
  unfold Portfolio_add_option, Portfolio_sub_option. simpl.
  rewrite !dict_get_set, (Option_eq_refl rt o).
  destruct (Option_eq rt o k) eqn:E.
  - rewrite (dict_get_congr rt (options p) o k 0 E). repeat split; lia.
  - repeat split; lia.
Qed.

(** X3: The value of [portfolio + option] is the value of the portfolio plus
    the payoff of the leg the option lands on, and the value of
    [portfolio - option] is the value minus that payoff.  The leg is the
    stored option equal to the new one when there is one: the payoff added
    is then the stored option's.  An exception of either value propagates. *)
Theorem add_sub_option_value :
  forall (rt : runtime) (p : OptionPortfolio) (o : Option) (s : Z),
    Portfolio_value (Portfolio_add_option rt p o) s
    = (a <- Portfolio_value p s ;;
       b <- value (stored_key rt (options p) o) s ;; Ok (a + b)) /\
    Portfolio_value (Portfolio_sub_option rt p o) s
    = (a <- Portfolio_value p s ;;
       b <- value (stored_key rt (options p) o) s ;; Ok (a - b)).
Proof.
  intros rt p o s.
  rewrite !Portfolio_value_legs.
  unfold Portfolio_add_option, Portfolio_sub_option. simpl.
  rewrite (legs_value_store rt (options p) o 1 s).
  replace (dict_get rt (options p) o 0 - 1)
    with (dict_get rt (options p) o 0 + -1) by lia.
  rewrite (legs_value_store rt (options p) o (-1) s).
  destruct (legs_value (options p) s) as [a|e]; simpl; [|split; reflexivity].
  destruct (value _ s) as [b|e]; simpl; [|split; reflexivity].
  split; f_equal; lia.
Qed.

(** X4: On a portfolio whose legs are pairwise distinct (every dict is),
    [portfolio * n] returns: it keeps the legs and their order, multiplies
    every quantity by [n], and multiplies the value by [n]; [-portfolio] is
    the case [n = -1]. *)
Theorem mul_scales :
  forall (rt : runtime) (p : OptionPortfolio) (n s : Z),
    distinct_keys rt (dict_keys (options p)) = true ->
    Portfolio_mul rt p n = Ok (mkPortfolio (scale n (options p))) /\
    Portfolio_neg rt p = Ok (mkPortfolio (scale (-1) (options p))) /\
    (forall k, dict_get rt (scale n (options p)) k 0
               = dict_get rt (options p) k 0 * n) /\
    Portfolio_value (mkPortfolio (scale n (options p))) s
    = (r <- Portfolio_value p s ;; Ok (r * n)).
Proof.
  intros rt p n s H. unfold Portfolio_neg.
  rewrite !Portfolio_mul_scale by exact H.
  repeat split.
  - intros k. apply dict_get_scale.
  - rewrite !Portfolio_value_legs. apply legs_value_scale.
Qed.

Lemma mul_scales_witness :
  Portfolio_mul sample_runtime
    (Option_add sample_runtime
       (CallOption 100 None EUROPEAN) (PutOption 110 None EUROPEAN)) 3
  = Ok (mkPortfolio
          [(CallOption 100 None EUROPEAN, 3); (PutOption 110 None EUROPEAN, 3)]).
Proof.
  destruct (mul_scales sample_runtime
              (Option_add sample_runtime
                 (CallOption 100 None EUROPEAN) (PutOption 110 None EUROPEAN))
              3 0) as [H _].
  - vm_compute. reflexivity.
  - rewrite H. vm_compute. reflexivity.
Defined.

(** X5: [portfolio + portfolio] and [portfolio - portfolio], for two different
    objects: whatever the order in which the union of the two key sets is
    visited, the quantity read under any key afterwards is the sum,
    respectively the difference, of the quantities the two portfolios held
    under it (0 where a portfolio has no such leg). *)
Theorem add_sub_portfolio_quantities :
  forall (rt : runtime) (order : list Option) (p q : OptionPortfolio) (k : Option),
    enumerates_union rt order (options p) (options q) ->
    dict_get rt (options (Portfolio_add_portfolio rt order p q)) k 0
    = dict_get rt (options p) k 0 + dict_get rt (options q) k 0 /\
    dict_get rt (options (Portfolio_sub_portfolio rt order p q)) k 0
    = dict_get rt (options p) k 0 - dict_get rt (options q) k 0.
Proof.
  intros rt order p q k H.
  pose proof H as (Hd & _ & _).
  unfold Portfolio_add_portfolio, Portfolio_sub_portfolio. simpl.
  rewrite (union_loop_get rt Z.add (options q) order (options p) k Hd).
  rewrite (union_loop_get rt Z.sub (options q) order (options p) k Hd).
  destruct (key_in rt order k) eqn:E; [split; reflexivity|].
  destruct (union_absent rt order (options p) (options q) k H E) as [-> ->].
  split; reflexivity.
Qed.

Lemma add_sub_portfolio_quantities_witness :
  let c100 := CallOption 100 None EUROPEAN in
  let c110 := CallOption 110 None EUROPEAN in
  let p100 := PutOption 100 None EUROPEAN in
  let p := mkPortfolio [(c100, 1); (c110, 2)] in
  let q := mkPortfolio [(c110, 5); (p100, 1)] in
  dict_get sample_runtime
    (options (Portfolio_add_portfolio sample_runtime [p100; c100; c110] p q))
    c110 0
  = dict_get sample_runtime (options p) c110 0
    + dict_get sample_runtime (options q) c110 0.
Proof.
  intros c100 c110 p100 p q.
  apply (add_sub_portfolio_quantities sample_runtime [p100; c100; c110] p q c110).
  split; [vm_compute; reflexivity|]. split.
  - cbn [In app map fst dict_keys options p q].
    intros k [<-|[<-|[<-|[]]]]; auto 6.
  - cbn [In app map fst dict_keys options p q].
    intros k [<-|[<-|[<-|[<-|[]]]]]; vm_compute; reflexivity.
Defined.

(** X7: [option + portfolio] is [portfolio + option]; [option - portfolio], on a
    portfolio whose legs are pairwise distinct, returns a portfolio whose
    quantity under every key is that of the option (1 under the keys equal
    to it, 0 elsewhere) minus the portfolio's.  With a right operand of
    another type [Option.__add__] and [Option.__sub__] return [None] without
    an error, whereas the portfolio's operators raise [ValueError]. *)
Theorem option_with_portfolio :
  forall (rt : runtime) (order : list Option) (a : Option) (p : OptionPortfolio),
    distinct_keys rt (dict_keys (options p)) = true ->
    Option_add_operand rt a (APortfolio p) = Ok (Some (Portfolio_add_option rt p a)) /\
    (exists r,
        Option_sub_operand rt a (APortfolio p) = Ok (Some r) /\
        forall k, dict_get rt (options r) k 0
                  = (if Option_eq rt a k then 1 else 0) - dict_get rt (options p) k 0) /\
    Option_add_operand rt a AnotherObject = Ok None /\
    Option_sub_operand rt a AnotherObject = Ok None /\
    Portfolio_add rt order p AnotherObject = Raise ValueError /\
    Portfolio_sub rt order p AnotherObject = Raise ValueError.
Proof.
  intros rt order a p H. repeat split.
  unfold Option_sub_operand, Portfolio_neg.
  rewrite Portfolio_mul_scale
    by (unfold Portfolio_sub_option; simpl; now apply distinct_keys_set).
  eexists. split; [reflexivity|].
  intros k. simpl. rewrite dict_get_scale, dict_get_set.
  destruct (Option_eq rt a k) eqn:E; [|lia].
  rewrite (dict_get_congr rt (options p) a k 0 E). lia.
Qed.

Lemma option_with_portfolio_witness :
  let a := CallOption 100 None EUROPEAN in
  let p := mkPortfolio [(CallOption 100 None EUROPEAN, 3);
                        (PutOption 100 None EUROPEAN, 2)] in
  exists r,
    Option_sub_operand sample_runtime a (APortfolio p) = Ok (Some r) /\
    forall k, dict_get sample_runtime (options r) k 0
              = (if Option_eq sample_runtime a k then 1 else 0)
                - dict_get sample_runtime (options p) k 0.
Proof.
  intros a p.
  destruct (option_with_portfolio sample_runtime [] a p) as (_ & H & _).
  - vm_compute. reflexivity.
  - exact H.
Defined.

Lemma two_legs_value (rt : runtime) (a b : Option) (qa qb s : Z) :
  Option_eq rt a b = false ->
  Portfolio_value (OptionPortfolio_init rt [(a, qa); (b, qb)]) s
  = (x <- value a s ;; y <- value b s ;; Ok (x * qa + y * qb)).
Proof.
  intros H. rewrite (init_two_distinct rt a b qa qb H), Portfolio_value_legs.
  simpl.
  destruct (value a s) as [x|e]; simpl; [|reflexivity].
  destruct (value b s) as [y|e]; simpl; [f_equal; lia|reflexivity].
Qed.

(** X8: For two options that are not equal, [(a + b).value(s)] is
    [a.value(s) + b.value(s)] and [(a - b).value(s)] is
    [a.value(s) - b.value(s)]; an exception of either value propagates. *)
Theorem sum_of_distinct_options :
  forall (rt : runtime) (a b : Option) (s : Z),
    Option_eq rt a b = false ->
    Portfolio_value (Option_add rt a b) s
    = (x <- value a s ;; y <- value b s ;; Ok (x + y)) /\
    Portfolio_value (Option_sub rt a b) s
    = (x <- value a s ;; y <- value b s ;; Ok (x - y)).
Proof.
  intros rt a b s H. unfold Option_add, Option_sub.
  rewrite !two_legs_value by exact H.
  destruct (value a s) as [x|e]; simpl; [|split; reflexivity].
  destruct (value b s) as [y|e]; simpl; [|split; reflexivity].
  split; f_equal; lia.
Qed.

Lemma sum_of_distinct_options_witness :
  Portfolio_value
    (Option_add sample_runtime
       (CallOption 100 None EUROPEAN) (CallOption 110 None EUROPEAN)) 120
  = Ok 30.
Proof.
  destruct (sum_of_distinct_options sample_runtime
              (CallOption 100 None EUROPEAN) (CallOption 110 None EUROPEAN) 120)
    as [H _].
  - vm_compute. reflexivity.
  - rewrite H. reflexivity.
Defined.

(** X9: A call minus a put at the same strike pays [s - k] at every spot (the
    forward), and the call plus the put pays [|s - k|] (the straddle), as
    long as the call and the put are not equal, that is, as long as their
    hashes differ. *)
Theorem forward_and_straddle :
  forall (rt : runtime) (k s : Z) (tc tp : option Z) (ec ep : ExerciseType),
    Option_eq rt (CallOption k tc ec) (PutOption k tp ep) = false ->
    Portfolio_value (Option_sub rt (CallOption k tc ec) (PutOption k tp ep)) s
    = Ok (s - k) /\
    Portfolio_value (Option_add rt (CallOption k tc ec) (PutOption k tp ep)) s
    = Ok (Z.abs (s - k)).
Proof.
  intros rt k s tc tp ec ep H. unfold Option_add, Option_sub.
  rewrite !two_legs_value by exact H.
  unfold value. simpl. rewrite !py_max_is_max.
  split; f_equal; lia.
Qed.

Lemma forward_and_straddle_witness :
  Portfolio_value
    (Option_sub sample_runtime
       (CallOption 100 None EUROPEAN) (PutOption 100 None EUROPEAN)) 90
  = Ok (90 - 100).
Proof.
  apply (forward_and_straddle sample_runtime 100 90 None None EUROPEAN EUROPEAN).
  vm_compute. reflexivity.
Defined.

(** X10: A portfolio that holds a leg of the base class [Option] cannot be
    valued: [value] raises [ValueError] at every spot, whatever the leg's
    quantity, zero included. *)
Theorem base_leg_raises :
  forall (p : OptionPortfolio) (o : Option) (q s : Z),
    In (o, q) (options p) -> option_type o = None ->
    Portfolio_value p s = Raise ValueError.
Proof.
  intros p o q s Hin Hnone.
  rewrite Portfolio_value_legs. now apply (legs_value_base (options p) s o q).
Qed.

Lemma base_leg_raises_witness :
  Portfolio_value
    (mkPortfolio [(CallOption 100 None EUROPEAN, 1);
                  (mkOption None 90 EUROPEAN None, 0)]) 120
  = Raise ValueError.
Proof.
  apply (base_leg_raises _ (mkOption None 90 EUROPEAN None) 0 120).
  - right. left. reflexivity.
  - reflexivity.
Defined.

Lemma hash_int_nonneg (n : Z) : 0 <= n -> hash_int n = n mod modulus.
Proof.
  intros Hn. unfold hash_int.
  assert (Hm : 0 <= n mod modulus < modulus)
    by (apply Z.mod_pos_bound; reflexivity).
  rewrite Z.abs_eq by exact Hn.
  destruct (Z.eq_dec n 0) as [->|Hne]; [reflexivity|].
  rewrite Z.sgn_pos by lia. rewrite Z.mul_1_l.
  destruct (Z.eqb_spec (n mod modulus) (-1)); [lia|reflexivity].
Qed.

(** X11: Two options of the same type and style whose non-negative strikes are
    congruent modulo [2 ** 61 - 1] are equal, whatever their times to
    expiration: one is found under the other in a portfolio, and adding one
    to a portfolio that holds the other raises the quantity of the leg
    already there. *)
Theorem congruent_strikes_are_equal :
  forall (rt : runtime) (t : option OptionType) (e : ExerciseType)
         (ta tb : option Z) (k k' : Z) (d : pydict),
    0 <= k -> 0 <= k' -> k mod (2 ^ 61 - 1) = k' mod (2 ^ 61 - 1) ->
    let a := mkOption t k e ta in
    let b := mkOption t k' e tb in
    Option_eq rt a b = true /\
    dict_find rt d a = dict_find rt d b /\
    (forall q, dict_find rt d a = Some q ->
        Portfolio_add_option rt (mkPortfolio d) b
        = mkPortfolio (dict_set rt d a (q + 1))).
Proof.
  intros rt t e ta tb k k' d Hk Hk' Hmod a b.
  assert (Hh : Option_hash rt a = Option_hash rt b).
  { unfold Option_hash, a, b. simpl.
    rewrite (hash_int_nonneg k Hk), (hash_int_nonneg k' Hk').
    unfold modulus. now rewrite Hmod. }
  assert (He : Option_eq rt a b = true) by now apply Option_eq_hash.
  split; [exact He|]. split; [now apply dict_find_congr|].
  intros q Hq. unfold Portfolio_add_option. simpl.
  unfold dict_get. rewrite <- (dict_find_congr rt d a b Hh), Hq.
  f_equal. symmetry. apply dict_set_found; [exact Hh|].
  rewrite Hq. discriminate.
Qed.

Lemma congruent_strikes_are_equal_witness :
  Option_eq sample_runtime
    (CallOption 100 None EUROPEAN)
    (CallOption (100 + (2 ^ 61 - 1)) (Some 2) EUROPEAN)
  = true.
Proof.
  apply (congruent_strikes_are_equal sample_runtime (Some CALL) EUROPEAN
           None (Some 2) 100 (100 + (2 ^ 61 - 1)) []).
  - lia.
  - lia.
  - reflexivity.
Defined.

(** X12: [exercise_price] lists one strike per leg in the order the legs were
    first stored.  Adding an option equal to a stored one leaves the list as
    it is; adding a new option appends its strike, and the strike stays in
    the list after the option is subtracted again, with the leg at
    quantity 0. *)
Theorem exercise_price_keeps_zero_legs :
  forall (rt : runtime) (p : OptionPortfolio) (o : Option),
    (key_in rt (dict_keys (options p)) o = true ->
     Portfolio_exercise_price (Portfolio_add_option rt p o)
     = Portfolio_exercise_price p) /\
    (key_in rt (dict_keys (options p)) o = false ->
     Portfolio_exercise_price (Portfolio_add_option rt p o)
     = Portfolio_exercise_price p ++ [exercise_price o] /\
     Portfolio_exercise_price
       (Portfolio_sub_option rt (Portfolio_add_option rt p o) o)
     = Portfolio_exercise_price p ++ [exercise_price o] /\
     dict_find rt
       (options (Portfolio_sub_option rt (Portfolio_add_option rt p o) o)) o
     = Some 0).
Proof.
  intros rt p o.
  unfold Portfolio_exercise_price, Portfolio_add_option, Portfolio_sub_option.
  simpl. split; intros H.
  - now rewrite dict_keys_set, H.
  - rewrite !dict_keys_set, H, key_in_app. simpl.
    rewrite (Option_eq_refl rt o), orb_true_r, map_app. simpl.
    repeat split.
    rewrite dict_find_set, (Option_eq_refl rt o).
    rewrite dict_get_set, (Option_eq_refl rt o).
    f_equal. unfold dict_get.
    apply key_in_find in H. rewrite H. reflexivity.
Qed.

Lemma exercise_price_keeps_zero_legs_witness :
  let p := mkPortfolio [(CallOption 100 None EUROPEAN, 1)] in
  let o := PutOption 90 None EUROPEAN in
  Portfolio_exercise_price
    (Portfolio_sub_option sample_runtime
       (Portfolio_add_option sample_runtime p o) o)
  = [100; 90].
Proof.
  intros p o.
  destruct (exercise_price_keeps_zero_legs sample_runtime p o) as [_ H].
  destruct H as (_ & H & _).
  - vm_compute. reflexivity.
  - exact H.
Defined.


(** X13: [option * n] (and [n * option]) is the portfolio of one leg, the option
    at quantity [n]; its value is [n] times the payoff; [-option] is
    [option * -1]; and [(option * n) * m] is [option * (n * m)]. *)
Theorem option_scalar :
  forall (rt : runtime) (a : Option) (n m s : Z),
    Option_mul rt a n = mkPortfolio [(a, n)] /\
    Option_neg rt a = Option_mul rt a (-1) /\
    Portfolio_value (Option_mul rt a n) s = (v <- value a s ;; Ok (v * n)) /\
    Portfolio_mul rt (Option_mul rt a n) m = Ok (Option_mul rt a (n * m)).
Proof.
  intros rt a n m s.
  split; [reflexivity|]. split; [reflexivity|]. split.
  - rewrite Portfolio_value_legs. simpl.
    destruct (value a s); simpl; [f_equal; lia|reflexivity].
  - unfold Portfolio_mul, Option_mul, OptionPortfolio_init, dict_getitem. simpl.
    rewrite (Option_eq_refl rt a). simpl.
    rewrite ?(Option_eq_refl rt a). reflexivity.
Qed.

Section SelfLoop.

Variable rt : runtime.
Variable f : Z -> Z -> Z.

Lemma self_loop_get (order : list Option) (d : pydict) (k : Option) :
  distinct_keys rt order = true ->
  dict_get rt
    (fold_left
       (fun d opt => dict_set rt d opt (f (dict_get rt d opt 0) (dict_get rt d opt 0)))
       order d) k 0
  = if key_in rt order k
    then f (dict_get rt d k 0) (dict_get rt d k 0)
    else dict_get rt d k 0.
Proof.
  revert d. induction order as [|a order IH]; intros d Hd; simpl.
  - reflexivity.
  - apply andb_true_iff in Hd. destruct Hd as [Ha Hd].
    apply negb_true_iff in Ha.
    rewrite (IH _ Hd), dict_get_set.
    destruct (Option_eq rt a k) eqn:E; simpl.
    + rewrite <- (key_in_congr rt order a k E), Ha.
      now rewrite (dict_get_congr rt d a k 0 E).
    + reflexivity.
Qed.

Lemma key_in_In (ks : list Option) (k : Option) :
  In k ks -> key_in rt ks k = true.
Proof.
  induction ks as [|k0 ks IH]; simpl; [contradiction|].
  intros [->|H]; [now rewrite Option_eq_refl|].
  rewrite (IH H). apply orb_true_r.
Qed.

(** Stores under keys that are present leave the list of keys alone. *)
Lemma self_loop_keys (order : list Option) (d : pydict) :
  (forall k, In k order -> In k (dict_keys d)) ->
  dict_keys
    (fold_left
       (fun d opt => dict_set rt d opt (f (dict_get rt d opt 0) (dict_get rt d opt 0)))
       order d)
  = dict_keys d.
Proof.
  revert d. induction order as [|a order IH]; intros d H; simpl; [reflexivity|].
  assert (Hk : dict_keys (dict_set rt d a (f (dict_get rt d a 0) (dict_get rt d a 0)))
               = dict_keys d).
  { rewrite dict_keys_set, key_in_In; [reflexivity|]. apply H. now left. }
  rewrite IH; [exact Hk|].
  intros k Hin. rewrite Hk. apply H. now right.
Qed.

End SelfLoop.

(** X6: [portfolio + portfolio] with the same object on both sides doubles
    every quantity, and [portfolio - portfolio] leaves every leg in place at
    quantity 0, whatever the order in which the set of keys is visited. *)
Theorem self_sum_and_difference :
  forall (rt : runtime) (order : list Option) (p : OptionPortfolio) (k : Option),
    enumerates_union rt order (options p) (options p) ->
    dict_get rt (options (Portfolio_add_self rt order p)) k 0
    = 2 * dict_get rt (options p) k 0 /\
    dict_get rt (options (Portfolio_sub_self rt order p)) k 0 = 0 /\
    dict_keys (options (Portfolio_sub_self rt order p)) = dict_keys (options p) /\
    Portfolio_exercise_price (Portfolio_sub_self rt order p)
    = Portfolio_exercise_price p.
Proof.
  intros rt order p k H.
  pose proof H as (Hd & Hin & _).
  assert (Hin' : forall k0, In k0 order -> In k0 (dict_keys (options p))).
  { intros k0 Hk0. specialize (Hin k0 Hk0).
    apply in_app_or in Hin. tauto. }
  unfold Portfolio_add_self, Portfolio_sub_self, Portfolio_exercise_price.
  cbn [options].
  rewrite (self_loop_get rt Z.add order (options p) k Hd).
  rewrite (self_loop_get rt Z.sub order (options p) k Hd).
  rewrite (self_loop_keys rt Z.sub order (options p) Hin').
  destruct (key_in rt order k) eqn:E.
  - repeat split; lia.
  - destruct (union_absent rt order (options p) (options p) k H E) as [-> _].
    repeat split.
Qed.

Lemma self_sum_and_difference_witness :
  let c100 := CallOption 100 None EUROPEAN in
  let p90 := PutOption 90 None EUROPEAN in
  let p := mkPortfolio [(c100, 1); (p90, -2)] in
  dict_get sample_runtime
    (options (Portfolio_add_self sample_runtime [p90; c100] p)) p90 0
  = 2 * dict_get sample_runtime (options p) p90 0.
Proof.
  intros c100 p90 p.
  apply (self_sum_and_difference sample_runtime [p90; c100] p p90).
  split; [vm_compute; reflexivity|]. split.
  - cbn [In app map fst dict_keys options p].
    intros k [<-|[<-|[]]]; auto 6.
  - cbn [In app map fst dict_keys options p].
    intros k [<-|[<-|[<-|[<-|[]]]]]; vm_compute; reflexivity.
Defined.

End PortfolioFacts.

(** * Properties of the default price range *)

Module PlottingFacts.

Import Classes Plotting.
Local Open Scope Z_scope.

Lemma py_min_spec (l : list Z) (m : Z) :
  py_min l = Ok m -> In m l /\ forall k, In k l -> m <= k.
Proof.
  destruct l as [|k0 l]; simpl; [discriminate|].
  intros [= <-]. revert k0.
  induction l as [|k1 l IH]; intros k0; simpl.
  - split; [auto|]. intros k [<-|[]]. lia.
  - destruct (IH (if k1 <? k0 then k1 else k0)) as [Hin Hle].
    split.
    + destruct Hin as [Hin|Hin]; [|auto].
      rewrite <- Hin. destruct (k1 <? k0); auto.
    + intros k [<-|[<-|Hk]].
      * specialize (Hle _ (or_introl eq_refl)).
        destruct (Z.ltb_spec k1 k0); lia.
      * specialize (Hle _ (or_introl eq_refl)).
        destruct (Z.ltb_spec k1 k0); lia.
      * apply Hle. now right.
Qed.

Lemma py_max_list_spec (l : list Z) (m : Z) :
  py_max_list l = Ok m -> In m l /\ forall k, In k l -> k <= m.
Proof.
  destruct l as [|k0 l]; simpl; [discriminate|].
  intros [= <-]. revert k0.
  induction l as [|k1 l IH]; intros k0; simpl.
  - split; [auto|]. intros k [<-|[]]. lia.
  - destruct (IH (if k1 >? k0 then k1 else k0)) as [Hin Hle].
    split.
    + destruct Hin as [Hin|Hin]; [|auto].
      rewrite <- Hin. destruct (k1 >? k0); auto.
    + intros k [<-|[<-|Hk]].
      * specialize (Hle _ (or_introl eq_refl)).
        destruct (Z.gtb_spec k1 k0); lia.
      * specialize (Hle _ (or_introl eq_refl)).
        destruct (Z.gtb_spec k1 k0); lia.
      * apply Hle. now right.
Qed.

(** X14: The price range [calculate_profit_loss] takes when none is given: for
    an Option it is [(k - 20, k + 20)]; for a portfolio without legs the
    call raises [ValueError]; for a portfolio with legs it is
    [(lower, upper)] with [lower + 20] the smallest and [upper - 20] the
    largest strike among the legs, legs of quantity 0 included, so every
    strike lies at least 20 inside the range. *)
Theorem default_price_range_spec :
  (forall o : Option,
      default_price_range (IsOption o)
      = Ok (exercise_price o - 20, exercise_price o + 20)) /\
  default_price_range (IsPortfolio (mkPortfolio [])) = Raise ValueError /\
  (forall (p : OptionPortfolio) (o : Option) (q : Z),
      In (o, q) (options p) ->
      exists lower upper,
        default_price_range (IsPortfolio p) = Ok (lower, upper) /\
        In (lower + 20) (Portfolio_exercise_price p) /\
        In (upper - 20) (Portfolio_exercise_price p) /\
        (forall k, In k (Portfolio_exercise_price p) ->
                   lower + 20 <= k <= upper - 20)).
Proof.
  split; [reflexivity|]. split; [reflexivity|].
  intros p o q Hin. unfold default_price_range.
  assert (Hne : Portfolio_exercise_price p <> []).
  { unfold Portfolio_exercise_price, dict_keys.
    destruct (options p); [contradiction|discriminate]. }
  destruct (py_min (Portfolio_exercise_price p)) as [lo|e] eqn:Emin.
  2: { destruct (Portfolio_exercise_price p); [contradiction|discriminate]. }
  destruct (py_max_list (Portfolio_exercise_price p)) as [hi|e] eqn:Emax.
  2: { destruct (Portfolio_exercise_price p); [contradiction|discriminate]. }
  simpl.
  destruct (py_min_spec _ _ Emin) as [Hlo Hle].
  destruct (py_max_list_spec _ _ Emax) as [Hhi Hge].
  exists (lo - 20), (hi + 20). split; [reflexivity|].
  replace (lo - 20 + 20) with lo by lia.
  replace (hi + 20 - 20) with hi by lia.
  repeat split; auto.
Qed.

Lemma default_price_range_spec_witness :
  let p := mkPortfolio [(CallOption 100 None EUROPEAN, 1);
                        (CallOption 130 None EUROPEAN, 0);
                        (PutOption 90 None EUROPEAN, -1)] in
  exists lower upper,
    default_price_range (IsPortfolio p) = Ok (lower, upper) /\
    In (lower + 20) (Portfolio_exercise_price p) /\
    In (upper - 20) (Portfolio_exercise_price p) /\
    (forall k, In k (Portfolio_exercise_price p) ->
               lower + 20 <= k <= upper - 20).
Proof.
  intros p.
  exact (proj2 (proj2 default_price_range_spec) p
           (CallOption 100 None EUROPEAN) 1 (or_introl eq_refl)).
Defined.

End PlottingFacts.

(** * Further properties of the pricing engine *)

Module PricingFacts.

Import Gbs GbsFacts.
Local Open Scope R_scope.

(** ** The specializations among themselves *)

(** X15: The stock formula without dividend is the dividend formula at yield 0
    and the currency formula at foreign rate 0; the commodity formula is the
    dividend formula at yield [r] and the currency formula at foreign rate
    [r]; the dividend and the currency formulas are one function. *)
Theorem specializations_coincide :
  forall (option_type : string) (fs x t r q v : R),
    black_scholes option_type fs x t r v
    = black_scholes_merton option_type fs x t r 0 v /\
    black_scholes option_type fs x t r v
    = garman_kohlhagen option_type fs x t r 0 v /\
    black_scholes_commodity option_type fs x t r v
    = black_scholes_merton option_type fs x t r r v /\
    black_scholes_commodity option_type fs x t r v
    = garman_kohlhagen option_type fs x t r r v /\
    black_scholes_merton option_type fs x t r q v
    = garman_kohlhagen option_type fs x t r q v.
Proof.
  intros. unfold black_scholes, black_scholes_merton, black_scholes_commodity,
    garman_kohlhagen.
  rewrite Rminus_0_r, Rminus_diag. repeat split.
Qed.

(** ** The mapping a put returns *)

Lemma lookup_greeks (l : locals) :
  getitem (greeks_dict l) "value" = Ok (value l) /\
  getitem (greeks_dict l) "delta" = Ok (delta l) /\
  getitem (greeks_dict l) "gamma" = Ok (gamma l) /\
  getitem (greeks_dict l) "theta" = Ok (theta l) /\
  getitem (greeks_dict l) "vega" = Ok (vega l / 100) /\
  getitem (greeks_dict l) "rho" = Ok (rho l / 100).
Proof. repeat split. Qed.

(** What a successful call with an [option_type] other than ['call']
    returned. *)
Lemma put_returned (option_type : string) (fs x t r b v : R) (res : pyobj) :
  option_type <> "call"%string ->
  _generalized_black_scholes option_type fs x t r b v = Ok res ->
  ~ domain_error fs x t v /\
  res = greeks_dict (put_branch fs x t r b v (sqrt t)
                       (d1_of fs x t b v) (d2_of fs x t b v)).
Proof.
  intros Hot H.
  destruct (domain_error_dec fs x t v) as [Hd|Hd].
  - destruct (gbs_raises option_type fs x t r b v Hd) as [e He].
    rewrite He in H. discriminate H.
  - split; [exact Hd|].
    rewrite (gbs_returns option_type fs x t r b v Hd) in H.
    unfold returned in H.
    destruct (String.eqb_spec option_type "call"); [contradiction|].
    now injection H as <-.
Qed.

Lemma sqrt_sqr_pos (t : R) : 0 <= t -> sqrt t * sqrt t = t.
Proof. intros H. now apply sqrt_sqrt. Qed.

Lemma no_error_facts (fs x t v : R) :
  ~ domain_error fs x t v -> 0 < t /\ v <> 0 /\ fs <> 0 /\ x <> 0 /\ 0 < sqrt t.
Proof.
  intros H. rewrite domain_error_iff in H.
  assert (Ht : 0 < t) by lra.
  repeat split; try lra; try (intros ->; lra).
  now apply sqrt_lt_R0.
Qed.

(** X16: The mapping satisfies the Black-Scholes equation with cost of carry:
    [theta + v^2 fs^2 gamma / 2 + b fs delta = r value]. *)
Theorem put_greeks_satisfy_pde :
  forall (option_type : string) (fs x t r b v : R) (res : pyobj),
    option_type <> "call"%string ->
    _generalized_black_scholes option_type fs x t r b v = Ok res ->
    exists value delta gamma theta : R,
      getitem res "value" = Ok value /\
      getitem res "delta" = Ok delta /\
      getitem res "gamma" = Ok gamma /\
      getitem res "theta" = Ok theta /\
      theta + v * v * fs * fs * gamma / 2 + b * fs * delta = r * value.
Proof.
  intros option_type fs x t r b v res Hot H.
  destruct (put_returned option_type fs x t r b v res Hot H) as [Hd ->].
  destruct (no_error_facts fs x t v Hd) as (Ht & Hv & Hfs & Hx & Hs).
  do 4 eexists. repeat (split; [reflexivity|]).
  unfold put_branch. simpl. field.
  repeat split; lra.
Qed.

Lemma put_greeks_satisfy_pde_witness :
  exists value delta gamma theta : R,
    getitem (returned "put" 100 100 1 (1 / 20) (1 / 20) (1 / 5)) "value" = Ok value /\
    getitem (returned "put" 100 100 1 (1 / 20) (1 / 20) (1 / 5)) "delta" = Ok delta /\
    getitem (returned "put" 100 100 1 (1 / 20) (1 / 20) (1 / 5)) "gamma" = Ok gamma /\
    getitem (returned "put" 100 100 1 (1 / 20) (1 / 20) (1 / 5)) "theta" = Ok theta /\
    theta + 1 / 5 * (1 / 5) * 100 * 100 * gamma / 2 + 1 / 20 * 100 * delta
    = 1 / 20 * value.
Proof.
  apply (put_greeks_satisfy_pde "put" 100 100 1 (1 / 20) (1 / 20) (1 / 5)).
  - discriminate.
  - apply gbs_returns, in_domain_no_error; lra.
Defined.

(** X17: On inputs of the domain of moderate size the function returns for
    an [option_type] other than ['call'], the mapping's gamma and vega are
    not negative, and vega (per percentage point) is tied to gamma by
    [100 vega = fs^2 v t gamma]. *)
Theorem put_gamma_vega :
  forall (option_type : string) (fs x t r b v : R),
    option_type <> "call"%string ->
    0 < fs -> 0 < x -> 0 < v -> moderate fs x t r b v ->
    exists (res : pyobj) (gamma vega : R),
      _generalized_black_scholes option_type fs x t r b v = Ok res /\
      getitem res "gamma" = Ok gamma /\
      getitem res "vega" = Ok vega /\
      0 <= gamma /\ 0 <= vega /\
      100 * vega = fs * fs * v * t * gamma.
Proof.
  intros option_type fs x t r b v Hot Hfs Hx Hv Hm.
  assert (Ht : 0 < t) by (destruct Hm as (_ & _ & [Ht _] & _); lra).
  pose proof (in_domain_no_error fs x t v Hfs Hx Ht Hv) as Hd.
  pose proof (sqrt_lt_R0 t Ht) as Hs.
  pose proof (sqrt_sqrt t (Rlt_le _ _ Ht)) as Hss.
  pose proof (exp_pos ((b - r) * t)) as He.
  pose proof (norm_pdf_pos (d1_of fs x t b v)) as Hp.
  do 3 eexists. split.
  { rewrite (gbs_returns option_type fs x t r b v Hd). unfold returned.
    destruct (String.eqb_spec option_type "call"); [contradiction|reflexivity]. }
  split; [reflexivity|]. split; [reflexivity|].
  unfold put_branch. simpl.
  assert (Hden : 0 < fs * v * sqrt t)
    by (apply Rmult_lt_0_compat; [apply Rmult_lt_0_compat|]; assumption).
  repeat split.
  - left. apply Rdiv_lt_0_compat; [|exact Hden].
    now apply Rmult_lt_0_compat.
  - left. apply Rdiv_lt_0_compat; [|lra].
    apply Rmult_lt_0_compat; [|exact Hp].
    apply Rmult_lt_0_compat; [|exact Hs].
    now apply Rmult_lt_0_compat.
  - set (E := exp ((b - r) * t)). set (P := norm_pdf (d1_of fs x t b v)).
    set (s := sqrt t) in *. rewrite <- Hss. field. lra.
Qed.

Lemma put_gamma_vega_witness :
  exists (res : pyobj) (gamma vega : R),
    _generalized_black_scholes "put" 100 100 1 (1 / 20) (1 / 20) (1 / 5) = Ok res /\
    getitem res "gamma" = Ok gamma /\
    getitem res "vega" = Ok vega /\
    0 <= gamma /\ 0 <= vega /\
    100 * vega = 100 * 100 * (1 / 5) * 1 * gamma.
Proof.
  apply (put_gamma_vega "put" 100 100 1 (1 / 20) (1 / 20) (1 / 5));
    [discriminate|lra|lra|lra|].
  unfold moderate, Rabs.
  repeat match goal with |- context [Rcase_abs ?a] => destruct (Rcase_abs a) end;
    lra.
Defined.

Lemma d1_of_scale (c fs x t b v : R) :
  c <> 0 -> x <> 0 -> d1_of (c * fs) (c * x) t b v = d1_of fs x t b v.
Proof.
  intros Hc Hx. unfold d1_of.
  now replace (c * fs / (c * x)) with (fs / x) by (field; split; assumption).
Qed.

Lemma domain_error_scale (c fs x t v : R) :
  0 < c -> ~ domain_error fs x t v -> ~ domain_error (c * fs) (c * x) t v.
Proof.
  rewrite !domain_error_iff. intros Hc H [H1|[H1|H1]]; [lra|lra|].
  apply H. right. right.
  replace (c * fs * (c * x)) with (c * c * (fs * x)) in H1 by ring.
  assert (0 < c * c) by nra. nra.
Qed.

(** X19: Pricing is homogeneous in the pair of spot and strike: when both are
    multiplied by [c > 0], the value, theta, vega and rho of the mapping are
    multiplied by [c], the delta stays, and the gamma is divided by [c]. *)
Theorem put_homogeneous :
  forall (option_type : string) (c fs x t r b v : R) (res : pyobj),
    option_type <> "call"%string -> 0 < c ->
    _generalized_black_scholes option_type fs x t r b v = Ok res ->
    exists res' : pyobj,
      _generalized_black_scholes option_type (c * fs) (c * x) t r b v = Ok res' /\
      (forall a, getitem res "value" = Ok a -> getitem res' "value" = Ok (c * a)) /\
      (forall a, getitem res "delta" = Ok a -> getitem res' "delta" = Ok a) /\
      (forall a, getitem res "gamma" = Ok a -> getitem res' "gamma" = Ok (a / c)) /\
      (forall a, getitem res "theta" = Ok a -> getitem res' "theta" = Ok (c * a)) /\
      (forall a, getitem res "vega" = Ok a -> getitem res' "vega" = Ok (c * a)) /\
      (forall a, getitem res "rho" = Ok a -> getitem res' "rho" = Ok (c * a)).
Proof.
  intros option_type c fs x t r b v res Hot Hc H.
  destruct (put_returned option_type fs x t r b v res Hot H) as [Hd ->].
  destruct (no_error_facts fs x t v Hd) as (Ht & Hv & Hfs & Hx & Hs).
  eexists. split.
  { rewrite (gbs_returns option_type (c * fs) (c * x) t r b v)
      by (now apply domain_error_scale).
    unfold returned.
    destruct (String.eqb_spec option_type "call"); [contradiction|reflexivity]. }
  unfold d2_of. rewrite !d1_of_scale by lra.
  unfold put_branch. simpl.
  repeat split; intros a [= <-]; f_equal; field; repeat split; lra.
Qed.

Lemma put_homogeneous_witness :
  exists res' : pyobj,
    _generalized_black_scholes "put" (2 * 100) (2 * 90) 1 (1 / 20) (1 / 20) (1 / 5)
    = Ok res' /\
    getitem res' "value"
    = Ok (2 * put_price 100 90 1 (1 / 20) (1 / 20) (1 / 5)).
Proof.
  destruct (put_homogeneous "put" 2 100 90 1 (1 / 20) (1 / 20) (1 / 5)
              (returned "put" 100 90 1 (1 / 20) (1 / 20) (1 / 5)))
    as [res' [H1 [H2 _]]].
  - discriminate.
  - lra.
  - apply gbs_returns, in_domain_no_error; lra.
  - exists res'. split; [exact H1|]. apply H2. reflexivity.
Defined.

(** ** The solver *)


Section BisectNonnegSettings.

Variable f : R -> result R.
Hypothesis f_nonneg : forall v y, f v = Ok y -> 0 <= y.



End BisectNonnegSettings.



(** X22: With ['call'] the solver and its two wrappers raise on every input:
    the price is [None]. *)
Theorem solver_raises_on_call :
  forall (max_iter : Z) (lo hi xtol p fs x t r b q : R),
    raises (_implied_volatility "call" max_iter lo hi xtol p fs x t r b) /\
    raises (implied_volatility_stock "call" max_iter lo hi xtol p fs x t r q) /\
    raises (implied_volatility_commodity "call" max_iter lo hi xtol p fs x t r).
Proof.
  assert (H : forall max_iter lo hi xtol p fs x t r b,
             raises (_implied_volatility "call" max_iter lo hi xtol p fs x t r b)).
  { intros. unfold _implied_volatility, bisect.
    destruct (Rle_dec xtol 0); [apply raises_Raise|].
    destruct (max_iter <? 0)%Z; [apply raises_Raise|].
    destruct (obj_call_raises p fs x t r b lo) as [e ->]. simpl.
    apply raises_Raise. }
  intros. repeat split; apply H.
Qed.

(** X23: A volatility the solver returns prices back to the target exactly: it
    is an end of the bracket at which the pricing function returns a mapping
    whose value is [p]. *)
Theorem solver_root_reprices :
  forall (option_type : string) (max_iter : Z)
         (lo hi xtol p fs x t r b root : R),
    _implied_volatility option_type max_iter lo hi xtol p fs x t r b = Ok root ->
    (root = lo \/ root = hi) /\
    exists res : pyobj,
      _generalized_black_scholes option_type fs x t r b root = Ok res /\
      getitem res "value" = Ok p.
Proof.
  intros option_type max_iter lo hi xtol p fs x t r b root H.
  assert (Hobj : obj option_type p fs x t r b root = Ok 0 /\ (root = lo \/ root = hi)).
  { destruct (solver_returns_end _ _ _ _ _ _ _ _ _ _ _ _ H) as [[-> H0]|[-> H0]];
      auto. }
  destruct Hobj as [Hobj Hend]. split; [exact Hend|].
  unfold obj in Hobj.
  destruct (_generalized_black_scholes option_type fs x t r b root) as [res|e];
    simpl in Hobj; [|discriminate].
  exists res. split; [reflexivity|].
  destruct (getitem res "value") as [p_hat|e]; simpl in Hobj; [|discriminate].
  injection Hobj as Hobj. f_equal.
  unfold Rabs in Hobj. destruct (Rcase_abs (p_hat - p)); lra.
Qed.

Lemma solver_root_reprices_witness :
  exists res : pyobj,
    _generalized_black_scholes "put" 100 100 1 0 0 (1 / 2) = Ok res /\
    getitem res "value" = Ok (put_price 100 100 1 0 0 (1 / 2)).
Proof.
  apply (solver_root_reprices "put" 500 (1 / 2) 1 (1 / 1000)
           (put_price 100 100 1 0 0 (1 / 2)) 100 100 1 0 0 (1 / 2)).
  unfold _implied_volatility.
  destruct (atm_obj_positive (1 / 2) 1) as [fb [Hb _]]; [lra|lra|lra|].
  apply (bisect_zero_at_start _ (1 / 2) 1 (1 / 1000) fb 500);
    [lra|lia|apply atm_obj_zero; lra|exact Hb].
Defined.

(** X18: Value, delta and rho of the mapping are tied by the decomposition
    [value = fs delta - 100 rho / t]: the part of the value carried by the
    spot and the part carried by the strike. *)
Theorem put_value_decomposition :
  forall (option_type : string) (fs x t r b v : R) (res : pyobj),
    option_type <> "call"%string ->
    _generalized_black_scholes option_type fs x t r b v = Ok res ->
    exists value delta rho : R,
      getitem res "value" = Ok value /\
      getitem res "delta" = Ok delta /\
      getitem res "rho" = Ok rho /\
      value = fs * delta - 100 * rho / t.
Proof.
  intros option_type fs x t r b v res Hot H.
  destruct (put_returned option_type fs x t r b v res Hot H) as [Hd ->].
  destruct (no_error_facts fs x t v Hd) as (Ht & Hv & Hfs & Hx & Hs).
  do 3 eexists. repeat (split; [reflexivity|]).
  unfold put_branch. simpl. field. lra.
Qed.

Lemma put_value_decomposition_witness :
  exists value delta rho : R,
    getitem (returned "put" 100 90 1 (1 / 20) (1 / 20) (1 / 5)) "value" = Ok value /\
    getitem (returned "put" 100 90 1 (1 / 20) (1 / 20) (1 / 5)) "delta" = Ok delta /\
    getitem (returned "put" 100 90 1 (1 / 20) (1 / 20) (1 / 5)) "rho" = Ok rho /\
    value = 100 * delta - 100 * rho / 1.
Proof.
  apply (put_value_decomposition "put" 100 90 1 (1 / 20) (1 / 20) (1 / 5)).
  - discriminate.
  - apply gbs_returns, in_domain_no_error; lra.
Defined.

(** X20: [option_type] is only compared with ['call']: every other string is
    priced as a put, by the generalized formula, by the four
    specializations and by the solver. *)
Theorem other_option_types_are_puts :
  forall (option_type : string) (max_iter : Z)
         (lo hi xtol p fs x t r b q rf v : R),
    option_type <> "call"%string ->
    _generalized_black_scholes option_type fs x t r b v
    = _generalized_black_scholes "put" fs x t r b v /\
    black_scholes option_type fs x t r v = black_scholes "put" fs x t r v /\
    black_scholes_merton option_type fs x t r q v
    = black_scholes_merton "put" fs x t r q v /\
    black_scholes_commodity option_type fs x t r v
    = black_scholes_commodity "put" fs x t r v /\
    garman_kohlhagen option_type fs x t r rf v
    = garman_kohlhagen "put" fs x t r rf v /\
    _implied_volatility option_type max_iter lo hi xtol p fs x t r b
    = _implied_volatility "put" max_iter lo hi xtol p fs x t r b.
Proof.
  intros option_type max_iter lo hi xtol p fs x t r b q rf v Hot.
  assert (H : forall fs x t r b v,
             _generalized_black_scholes option_type fs x t r b v
             = _generalized_black_scholes "put" fs x t r b v).
  { intros. unfold _generalized_black_scholes.
    destruct (String.eqb_spec option_type "call"); [contradiction|reflexivity]. }
  unfold black_scholes, black_scholes_merton, black_scholes_commodity,
    garman_kohlhagen, _implied_volatility.
  repeat split; try apply H.
  f_equal. unfold obj.
  apply FunctionalExtensionality.functional_extensionality.
  intros v0. now rewrite H.
Qed.

Lemma other_option_types_are_puts_witness :
  _generalized_black_scholes "Call" 100 100 1 (1 / 20) (1 / 20) (1 / 5)
  = _generalized_black_scholes "put" 100 100 1 (1 / 20) (1 / 20) (1 / 5).
Proof.
  apply (other_option_types_are_puts "Call" 0 0 0 0 0 100 100 1 (1 / 20) (1 / 20) 0 0 (1 / 5)).
  discriminate.
Defined.

End PricingFacts.
